(** * Maintenance-service API: the order workflow

    A shallow embedding of the order-creation and order-status workflow of
    [app/routers/orders.py], together with the parts of
    [app/database/connection.py] (the generic [DBManager] and the session
    handling), [app/models] and [app/utils/constants.py] that it runs on.

    Conventions.
    - Python [int] is [Z].  [Decimal] prices have scale two (the columns are
      [Numeric(10, 2)]) and are held as an integer number of cents; the
      results of [Decimal] arithmetic are rounded to the 28 significant
      digits of the default context ([decimal_fix]).
    - The INTEGER columns hold 64-bit integers, and the database driver
      refuses to bind a Python [int] outside that range ([OverflowError],
      raised before the statement is sent).  The session below does not
      raise it: the rows of a database have keys and values inside the
      range, and where a theorem depends on an id that the caller supplies
      or on a stock that the code computes, it assumes them inside it
      ([int64], [restore_fits]).
    - A handler is a computation in a state-and-exception monad over
      [State]: the SQLAlchemy session (durable rows, the open transaction's
      view, the identity map of loaded [Item] objects), the outcomes the
      storage engine will give to the coming writes, the application log
      and the calls made to the upload service.
    - Time stamps and the [measure_time] wrapper are left out. *)

From stdpp Require Import gmap strings list fin_maps pretty.

Local Open Scope Z_scope.

(** ** decimal

    [Decimal] values are held as an integer number of cents.  The result
    of an addition or a multiplication is exact when it has at most 28
    significant digits; otherwise the default context rounds it to 28
    digits, half to even. *)

(** The number of digits of [a] beyond the 28 of the context. *)
Fixpoint excess_digits (fuel : nat) (a k : Z) : Z :=
  match fuel with
  | O => k
  | S fuel => if a <? 10 ^ (28 + k) then k else excess_digits fuel a (k + 1)
  end.

(** [a] without its last [k] digits, rounded half to even. *)
Definition round_half_even (a k : Z) : Z :=
  let q := a / 10 ^ k in
  let r := a mod 10 ^ k in
  if 2 * r <? 10 ^ k then q
  else if 2 * r =? 10 ^ k then (if Z.even q then q else q + 1)
  else q + 1.

(** The rounding every arithmetic operation of [decimal] ends with. *)
Definition decimal_fix (n : Z) : Z :=
  let a := Z.abs n in
  if a <? 10 ^ 28 then n
  else
    let k := excess_digits (Z.to_nat (Z.log2 a)) a 0 in
    Z.sgn n * round_half_even a k * 10 ^ k.

(** ** models *)

(** [models/order.py]: [class OrderStatus(str, Enum)]. *)
Inductive OrderStatus := PENDING | IN_PROGRESS | COMPLETED | CANCELLED.

#[global] Instance OrderStatus_eq_dec : EqDecision OrderStatus.
Proof. solve_decision. Defined.

(** [OrderStatus.value] *)
Definition value (s : OrderStatus) : string :=
  match s with
  | PENDING => "pending"
  | IN_PROGRESS => "in_progress"
  | COMPLETED => "completed"
  | CANCELLED => "cancelled"
  end.

(** [models/item.py].  The table is keyed by the primary key [id]; of the
    other columns the workflow reads and writes [price] and [stock] only. *)
Module Item.
Record t := mk { price : Z; stock : Z }.
Definition set_stock (v : Z) (it : t) : t := mk (price it) v.
Definition set_price (v : Z) (it : t) : t := mk v (stock it).

(** A keyword argument of [DBManager(Item).update] and its [setattr]. *)
Inductive kwarg := price_ (v : Z) | stock_ (v : Z).
Definition setattr (it : t) (kw : kwarg) : t :=
  match kw with
  | price_ v => set_price v it
  | stock_ v => set_stock v it
  end.
End Item.

(** [models/technical_report.py] *)
Module TechnicalReport.
Record t := mk {
  id : Z;
  title : string;
  description : string;
  diagnosis : option string;
  recommendations : option string;
  created_by_id : Z }.
End TechnicalReport.

(** [models/order.py]: [class Order] *)
Module Order.
Record t := mk {
  id : Z;
  request_id : string;
  technical_report_id : Z;
  status : OrderStatus;
  image_url : option string }.
Definition set_status (v : OrderStatus) (o : t) : t :=
  mk (id o) (request_id o) (technical_report_id o) v (image_url o).

#[global] Instance eq_dec : EqDecision t.
Proof. solve_decision. Defined.
End Order.

(** [models/order.py]: [class OrderItem] *)
Module OrderItem.
Record t := mk {
  id : Z;
  order_id : Z;
  item_id : Z;
  quantity : Z;
  unit_price : Z }.

(** [OrderItem.subtotal]: [self.unit_price * self.quantity] *)
Definition subtotal (self : t) : Z := decimal_fix (unit_price self * quantity self).

#[global] Instance eq_dec : EqDecision t.
Proof. solve_decision. Defined.
End OrderItem.

(** ** schemas *)

Module TechnicalReportCreate.
Record t := mk {
  title : string;
  description : string;
  diagnosis : option string;
  recommendations : option string }.
End TechnicalReportCreate.

Module OrderItemCreate.
Record t := mk { item_id : Z; quantity : Z }.
End OrderItemCreate.

Module OrderCreate.
Record t := mk {
  request_id : string;
  technical_report : TechnicalReportCreate.t;
  items : list OrderItemCreate.t;
  image_base64 : option string }.
End OrderCreate.

(** ** The database *)

(** The four tables the workflow touches.  [items] is keyed by primary key;
    the other tables keep their rows in insertion order. *)
Record Tables := mkTables {
  items : gmap Z Item.t;
  technical_reports : list TechnicalReport.t;
  orders : list Order.t;
  order_items : list OrderItem.t }.

Definition set_items (f : gmap Z Item.t → gmap Z Item.t) (d : Tables) : Tables :=
  mkTables (f (items d)) (technical_reports d) (orders d) (order_items d).
Definition set_technical_reports
    (f : list TechnicalReport.t → list TechnicalReport.t) (d : Tables) : Tables :=
  mkTables (items d) (f (technical_reports d)) (orders d) (order_items d).
Definition set_orders (f : list Order.t → list Order.t) (d : Tables) : Tables :=
  mkTables (items d) (technical_reports d) (f (orders d)) (order_items d).
Definition set_order_items (f : list OrderItem.t → list OrderItem.t) (d : Tables) : Tables :=
  mkTables (items d) (technical_reports d) (orders d) (f (order_items d)).

(** Integer primary keys: the next key is one above the largest in use. *)
Definition next_id (ids : list Z) : Z := 1 + foldr Z.max 0 ids.

(** ** Exceptions, log records *)

(** [sqlalchemy.exc]: [IntegrityError] is a subclass of [SQLAlchemyError];
    every other subclass is [OtherSQLAlchemyError] here.  The string is
    [str(e)]. *)
Inductive DbError :=
  | IntegrityError (msg : string)
  | OtherSQLAlchemyError (msg : string).

Definition str (e : DbError) : string :=
  match e with IntegrityError m | OtherSQLAlchemyError m => m end.

Inductive Exception :=
  | HTTPException (status_code : Z) (detail : string)
  | SQLAlchemyError (e : DbError)
  | AttributeError (msg : string).

Inductive Level := INFO | WARNING | ERROR.

(** ** The state a request runs in *)

Record State := mkState {
  committed : Tables;            (* rows that are durable *)
  txn : Tables;                  (* the open transaction's view: [committed]
                                    and this session's uncommitted writes *)
  identity_map : gmap Z Item.t;  (* [Item] objects loaded and not expired *)
  faults : nat → option DbError; (* outcome of the n-th write of the request *)
  writes : nat;                  (* writes issued so far *)
  log : list (Level * string);
  s3_uploads : list (string * string) (* calls made to [upload_image] *) }.

Definition set_committed (f : Tables → Tables) (s : State) : State :=
  mkState (f (committed s)) (txn s) (identity_map s) (faults s) (writes s)
          (log s) (s3_uploads s).
Definition set_txn (f : Tables → Tables) (s : State) : State :=
  mkState (committed s) (f (txn s)) (identity_map s) (faults s) (writes s)
          (log s) (s3_uploads s).
Definition set_identity_map (f : gmap Z Item.t → gmap Z Item.t) (s : State) : State :=
  mkState (committed s) (txn s) (f (identity_map s)) (faults s) (writes s)
          (log s) (s3_uploads s).
Definition set_writes (f : nat → nat) (s : State) : State :=
  mkState (committed s) (txn s) (identity_map s) (faults s) (f (writes s))
          (log s) (s3_uploads s).
Definition set_log (f : list (Level * string) → list (Level * string)) (s : State) : State :=
  mkState (committed s) (txn s) (identity_map s) (faults s) (writes s)
          (f (log s)) (s3_uploads s).
Definition set_s3_uploads
    (f : list (string * string) → list (string * string)) (s : State) : State :=
  mkState (committed s) (txn s) (identity_map s) (faults s) (writes s)
          (log s) (f (s3_uploads s)).

(** [SessionLocal()]: a fresh session on the database [d]; [plan] is what the
    storage engine will answer to the writes of this request. *)
Definition SessionLocal (d : Tables) (plan : nat → option DbError) : State :=
  mkState d d ∅ plan 0%nat [] [].

Definition no_faults : nat → option DbError := λ _, None.

(** ** The monad *)

Inductive Result (A : Type) :=
  | Ok (a : A)
  | Raise (e : Exception).
Arguments Ok {A} a.
Arguments Raise {A} e.

Definition M (A : Type) : Type := State → Result A * State.

Definition ret {A} (a : A) : M A := λ s, (Ok a, s).
Definition raise {A} (e : Exception) : M A := λ s, (Raise e, s).
Definition bind {A B} (m : M A) (f : A → M B) : M B :=
  λ s, match m s with
       | (Ok a, s') => f a s'
       | (Raise e, s') => (Raise e, s')
       end.

(** [try: m  except Exception as e: h e] *)
Definition try_except {A} (m : M A) (h : Exception → M A) : M A :=
  λ s, match m s with
       | (Ok a, s') => (Ok a, s')
       | (Raise e, s') => h e s'
       end.

Declare Scope m_scope.
Delimit Scope m_scope with m.
Notation "x <- m ;; k" := (bind m (λ x, k))
  (at level 100, m at next level, right associativity) : m_scope.
Notation "m ;;; k" := (bind m (λ _, k))
  (at level 100, right associativity) : m_scope.
Local Open Scope m_scope.

Definition get_state : M State := λ s, (Ok s, s).
Definition modify (f : State → State) : M unit := λ s, (Ok tt, f s).

(** ** logging *)

Module logger.
Definition info (msg : string) : M unit := modify (set_log (λ l, l ++ [(INFO, msg)])).
Definition warning (msg : string) : M unit := modify (set_log (λ l, l ++ [(WARNING, msg)])).
Definition error (msg : string) : M unit := modify (set_log (λ l, l ++ [(ERROR, msg)])).
End logger.

(** ** The session *)

Module db.
(** Every statement that writes asks the storage engine: the n-th write of
    the request fails with [e] when [faults n = Some e]. *)
Definition write : M unit :=
  λ s, match faults s (writes s) with
       | Some e => (Raise (SQLAlchemyError e), set_writes S s)
       | None => (Ok tt, set_writes S s)
       end.

(** [db.flush()]: send the pending rows to the database, inside the open
    transaction.  Pending rows are kept in [txn] from the moment they are
    added; a failure they cause shows here. *)
Definition flush : M unit := write.

(** [db.commit()]: flush, make the transaction durable, expire every
    loaded object.  The values flushed are taken to fit their columns (an
    integer outside the 64-bit range is refused by the driver with
    [OverflowError], which is no [SQLAlchemyError]). *)
Definition commit : M unit :=
  write ;;;
  modify (λ s, set_identity_map (λ _, ∅) (set_committed (λ _, txn s) s)).

(** [db.rollback()]: drop what is not committed, expire every loaded
    object. *)
Definition rollback : M unit :=
  modify (λ s, set_identity_map (λ _, ∅) (set_txn (λ _, committed s) s)).

(** [db.query(Item).filter(Item.id == id).first()]: the row is looked up
    in the transaction's view; the object returned is the one of the
    identity map when there is one (its loaded attributes are kept), a
    newly loaded one otherwise.  The result is a reference to that
    object: its primary key.  The [id] is taken to be in the 64-bit range
    of the column (the driver refuses to bind any other, with
    [OverflowError]). *)
Definition query_item (id : Z) : M (option Z) :=
  λ s, match items (txn s) !! id with
       | None => (Ok None, s)
       | Some row =>
           match identity_map s !! id with
           | Some _ => (Ok (Some id), s)
           | None => (Ok (Some id), set_identity_map <[id := row]> s)
           end
       end.

(** Attribute access on the [Item] object [ref]: the loaded attributes, or
    a reload when the object is expired ([ObjectDeletedError], an
    [SQLAlchemyError], when its row is gone). *)
Definition item_attrs (ref : Z) : M Item.t :=
  λ s, match identity_map s !! ref with
       | Some it => (Ok it, s)
       | None =>
           match items (txn s) !! ref with
           | Some row => (Ok row, set_identity_map <[ref := row]> s)
           | None => (Raise (SQLAlchemyError (OtherSQLAlchemyError "ObjectDeletedError")), s)
           end
       end.

(** [for field, value in kwargs.items(): setattr(db_obj, field, value)] on
    the [Item] object [ref]: the object is now dirty, its row is rewritten
    by the next flush. *)
Definition item_setattrs (ref : Z) (kwargs : list Item.kwarg) : M unit :=
  modify (λ s, set_identity_map (alter (λ it, foldl Item.setattr it kwargs) ref)
                 (set_txn (set_items (alter (λ it, foldl Item.setattr it kwargs) ref)) s)).

(** [db.refresh(db_obj)] for an [Item] *)
Definition refresh_item (ref : Z) : M unit :=
  λ s, match items (txn s) !! ref with
       | Some row => (Ok tt, set_identity_map <[ref := row]> s)
       | None => (Raise (SQLAlchemyError (OtherSQLAlchemyError "InvalidRequestError")), s)
       end.

(** [db.query(Order).filter(Order.request_id == v).first()] *)
Definition query_order_by_request_id (v : string) : M (option Order.t) :=
  λ s, (Ok (find (λ o, bool_decide (Order.request_id o = v)) (orders (txn s))), s).

(** [db.query(Order).filter(Order.id == id).first()] *)
Definition query_order (id : Z) : M (option Order.t) :=
  λ s, (Ok (find (λ o, bool_decide (Order.id o = id)) (orders (txn s))), s).

(** [Order.items]: the lines of an order *)
Definition lines_of (id : Z) (d : Tables) : list OrderItem.t :=
  filter (λ oi, OrderItem.order_id oi = id) (order_items d).

(** Loading the [Item] of every line, as [joinedload(OrderItem.item)]
    does: objects already in the identity map are kept as they are. *)
Definition load_items (ids : list Z) (s : State) : State :=
  foldl (λ s id, match items (txn s) !! id, identity_map s !! id with
                 | Some row, None => set_identity_map <[id := row]> s
                 | _, _ => s
                 end) s ids.

(** [db.query(Order).options(joinedload(Order.technical_report),
    joinedload(Order.items).joinedload(OrderItem.item))
    .filter(Order.id == id).first()], for an [id] in the 64-bit range of
    the column. *)
Definition query_order_joined (id : Z) : M (option Order.t) :=
  λ s, match find (λ o, bool_decide (Order.id o = id)) (orders (txn s)) with
       | None => (Ok None, s)
       | Some o => (Ok (Some o), load_items (OrderItem.item_id <$> lines_of id (txn s)) s)
       end.

(** [db.add(db_report); db.flush()] *)
Definition add_flush_report (r : TechnicalReportCreate.t) (user_id : Z)
    : M TechnicalReport.t :=
  flush ;;;
  s <- get_state ;;
  let db_report :=
    TechnicalReport.mk (next_id (TechnicalReport.id <$> technical_reports (txn s)))
      (TechnicalReportCreate.title r) (TechnicalReportCreate.description r)
      (TechnicalReportCreate.diagnosis r) (TechnicalReportCreate.recommendations r)
      user_id in
  modify (set_txn (set_technical_reports (λ l, l ++ [db_report]))) ;;;
  ret db_report.

(** [db.add(db_order); db.flush()]: [request_id] is [unique=True], the
    INSERT fails with [IntegrityError] when a row with that [request_id]
    is there. *)
Definition add_flush_order (request_id : string) (technical_report_id : Z)
    (status : OrderStatus) (image_url : option string) : M Order.t :=
  flush ;;;
  s <- get_state ;;
  if bool_decide (request_id ∈ Order.request_id <$> orders (txn s))
  then raise (SQLAlchemyError (IntegrityError "UNIQUE constraint failed: orders.request_id"))
  else
    let db_order :=
      Order.mk (next_id (Order.id <$> orders (txn s)))
        request_id technical_report_id status image_url in
    modify (set_txn (set_orders (λ l, l ++ [db_order]))) ;;;
    ret db_order.

(** [db.add(order_item)]: the row is pending until the next flush *)
Definition add_order_item (order_id item_id quantity unit_price : Z) : M unit :=
  s <- get_state ;;
  let order_item :=
    OrderItem.mk (next_id (OrderItem.id <$> order_items (txn s)))
      order_id item_id quantity unit_price in
  modify (set_txn (set_order_items (λ l, l ++ [order_item]))).

(** [setattr(db_obj, "status", v)] on the [Order] with key [id] *)
Definition order_set_status (id : Z) (v : OrderStatus) : M unit :=
  modify (set_txn (set_orders
    (fmap (λ o, if bool_decide (Order.id o = id) then Order.set_status v o else o)))).

(** [db.delete(db_obj)] for the [Item] object [ref], and the [db.commit()]
    that follows it.  [Item.order_items] has no delete cascade: the flush
    first detaches the rows of [order_items] that reference the item
    (UPDATE order_items SET item_id = NULL), which [nullable=False]
    refuses with [IntegrityError], as [ondelete=RESTRICT] refuses the
    DELETE itself.  When no row references the item, its row is deleted
    and the transaction is committed. *)
Definition delete_commit_item (ref : Z) : M unit :=
  write ;;;
  s <- get_state ;;
  if bool_decide (ref ∈ OrderItem.item_id <$> order_items (txn s))
  then raise (SQLAlchemyError
                (IntegrityError "NOT NULL constraint failed: order_items.item_id"))
  else
    modify (set_txn (set_items (delete ref))) ;;;
    modify (λ s, set_identity_map (λ _, ∅) (set_committed (λ _, txn s) s)).

(** [db.query(Order).options(joinedload(Order.technical_report),
    joinedload(Order.items).joinedload(OrderItem.item))
    .filter(Order.request_id == v).first()] *)
Definition query_order_joined_by_request_id (v : string) : M (option Order.t) :=
  λ s, match find (λ o, bool_decide (Order.request_id o = v)) (orders (txn s)) with
       | None => (Ok None, s)
       | Some o =>
           (Ok (Some o),
            load_items (OrderItem.item_id <$> lines_of (Order.id o) (txn s)) s)
       end.
End db.

(** [Order.total_amount], on the loaded lines [self.items]:
    [sum((item.unit_price * item.quantity for item in self.items), Decimal("0.00"))] *)
Definition total_amount (self_items : list OrderItem.t) : Z :=
  foldl (λ acc item,
           decimal_fix (acc + decimal_fix (OrderItem.unit_price item * OrderItem.quantity item)))
        0 self_items.

(** ** database/connection.py: DBManager *)

(** [item_manager = DBManager(Item)] *)
Module item_manager.
Definition get (id : Z) : M (option Z) :=
  try_except (db.query_item id) (λ e, db.rollback ;;; raise e).

(** [update(db, id, **kwargs)]: both [except] clauses roll back and
    re-raise. *)
Definition update (id : Z) (kwargs : list Item.kwarg) : M (option Z) :=
  try_except
    (db_obj <- db.query_item id ;;
     match db_obj with
     | None => ret None
     | Some ref =>
         db.item_setattrs ref kwargs ;;;
         db.commit ;;;
         db.refresh_item ref ;;;
         ret (Some ref)
     end)
    (λ e, db.rollback ;;; raise e).

(** [delete(db, id)] *)
Definition delete (id : Z) : M bool :=
  try_except
    (db_obj <- db.query_item id ;;
     match db_obj with
     | None => ret false
     | Some ref =>
         db.delete_commit_item ref ;;;
         ret true
     end)
    (λ e, db.rollback ;;; raise e).

(** [exists(db, id)]: [self.get(db, id) is not None] *)
Definition exists_ (id : Z) : M bool :=
  o <- get id ;;
  ret (bool_decide (is_Some o)).
End item_manager.

(** [order_manager = DBManager(Order)] *)
Module order_manager.
(** [get_by_field(db, "request_id", v)] *)
Definition get_by_field_request_id (v : string) : M (option Order.t) :=
  try_except (db.query_order_by_request_id v) (λ e, db.rollback ;;; raise e).

(** [update(db, id, status=v)] *)
Definition update (id : Z) (status : OrderStatus) : M (option Order.t) :=
  try_except
    (db_obj <- db.query_order id ;;
     match db_obj with
     | None => ret None
     | Some _ =>
         db.order_set_status id status ;;;
         db.commit ;;;
         db.query_order id
     end)
    (λ e, db.rollback ;;; raise e).
End order_manager.

(** ** utils/constants.py *)

Definition ORDER_STATUS_PENDING : string := "pending".
Definition ORDER_STATUS_IN_PROGRESS : string := "in_progress".
Definition ORDER_STATUS_COMPLETED : string := "completed".
Definition ORDER_STATUS_CANCELLED : string := "cancelled".

Definition VALID_ORDER_STATUSES : gset string :=
  {[ ORDER_STATUS_PENDING; ORDER_STATUS_IN_PROGRESS;
     ORDER_STATUS_COMPLETED; ORDER_STATUS_CANCELLED ]}.

Definition VALID_STATUS_TRANSITIONS : gmap string (list string) :=
  list_to_map [
    (ORDER_STATUS_PENDING, [ORDER_STATUS_IN_PROGRESS; ORDER_STATUS_CANCELLED]);
    (ORDER_STATUS_IN_PROGRESS, [ORDER_STATUS_COMPLETED; ORDER_STATUS_CANCELLED]);
    (ORDER_STATUS_COMPLETED, []);
    (ORDER_STATUS_CANCELLED, [])
  ].

(** [ERROR_MESSAGES[key].format(...)] *)
Module ERROR_MESSAGES.
Definition order_not_found (order_id : Z) : string :=
  "Order with id " +:+ pretty order_id +:+ " not found".
Definition item_not_found (item_id : Z) : string :=
  "Item with id " +:+ pretty item_id +:+ " not found".
Definition order_request_id_not_found (request_id : string) : string :=
  "Order with request_id " +:+ request_id +:+ " not found".
Definition order_items_empty : string := "Order must contain at least one item".
Definition order_item_not_found (item_id : Z) : string :=
  "Item with id " +:+ pretty item_id +:+ " not found for order".
Definition order_insufficient_stock (item_id available requested : Z) : string :=
  "Insufficient stock for item " +:+ pretty item_id +:+ ". Available: "
    +:+ pretty available +:+ ", Requested: " +:+ pretty requested.
Definition order_invalid_quantity : string := "Quantity must be greater than 0".
Definition order_invalid_status (current_status new_status : string) : string :=
  "Invalid status transition from " +:+ current_status +:+ " to " +:+ new_status.
Definition database_integrity_error (detail : string) : string :=
  "Database constraint violation: " +:+ detail.
Definition database_error (detail : string) : string :=
  "Database error occurred: " +:+ detail.
End ERROR_MESSAGES.

Definition HTTP_200_OK : Z := 200.
Definition HTTP_201_CREATED : Z := 201.
Definition HTTP_400_BAD_REQUEST : Z := 400.
Definition HTTP_409_CONFLICT : Z := 409.
Definition HTTP_404_NOT_FOUND : Z := 404.
Definition HTTP_500_INTERNAL_SERVER_ERROR : Z := 500.

(** ** What surrounds a request *)

(** The upload service answers with a URL or raises [S3ServiceError]. *)
Inductive Upload :=
  | Uploaded (url : string)
  | S3ServiceError (msg : string).

(** The collaborators of [create_order]: the upload service, and the other
    callers of the API, whose committed transactions ([concurrent]) land
    while this request is between its validation reads and its first
    write. *)
Record Env := mkEnv {
  upload_image : string → string → Upload;
  concurrent : Tables → Tables }.

(** No other caller is active. *)
Definition alone (upload : string → string → Upload) : Env := mkEnv upload (λ d, d).

Module s3_service.
Definition upload_image (env : Env) (image_base64 order_id : string) : M Upload :=
  modify (set_s3_uploads (λ l, l ++ [(image_base64, order_id)])) ;;;
  ret (upload_image env image_base64 order_id).
End s3_service.

(** Commits of other sessions become durable and visible to the next
    statement of this one; the identity map is not refreshed by them. *)
Definition others_commit (env : Env) : M unit :=
  modify (λ s, set_txn (λ _, concurrent env (committed s))
                 (set_committed (concurrent env) s)).

(** ** routers/orders.py *)

(** An entry of [order_items_data]: [item] is a reference to the session's
    [Item] object, [quantity] and [unit_price] are values. *)
Record ItemData := mkItemData { item : Z; quantity : Z; unit_price : Z }.

(** Lines 98-135: validate that all items exist and have sufficient stock. *)
Fixpoint validate_items (order_items : list OrderItemCreate.t) : M (list ItemData) :=
  match order_items with
  | [] => ret []
  | order_item :: rest =>
      if bool_decide (OrderItemCreate.quantity order_item ≤ 0) then
        logger.warning ("Invalid quantity: " +:+ pretty (OrderItemCreate.quantity order_item)) ;;;
        raise (HTTPException HTTP_400_BAD_REQUEST ERROR_MESSAGES.order_invalid_quantity)
      else
        db_item <- item_manager.get (OrderItemCreate.item_id order_item) ;;
        match db_item with
        | None =>
            logger.warning ("Item not found: " +:+ pretty (OrderItemCreate.item_id order_item)) ;;;
            raise (HTTPException HTTP_400_BAD_REQUEST
                     (ERROR_MESSAGES.order_item_not_found (OrderItemCreate.item_id order_item)))
        | Some ref =>
            it <- db.item_attrs ref ;;
            if bool_decide (Item.stock it < OrderItemCreate.quantity order_item) then
              logger.warning ("Insufficient stock: Item "
                +:+ pretty (OrderItemCreate.item_id order_item)
                +:+ ", Available: " +:+ pretty (Item.stock it)
                +:+ ", Requested: " +:+ pretty (OrderItemCreate.quantity order_item)) ;;;
              raise (HTTPException HTTP_400_BAD_REQUEST
                       (ERROR_MESSAGES.order_insufficient_stock
                          (OrderItemCreate.item_id order_item) (Item.stock it)
                          (OrderItemCreate.quantity order_item)))
            else
              order_items_data <- validate_items rest ;;
              ret (mkItemData ref (OrderItemCreate.quantity order_item) (Item.price it)
                     :: order_items_data)
        end
  end.

(** Lines 137-148: the optional image upload. *)
Definition upload_optional_image (env : Env) (order : OrderCreate.t) : M (option string) :=
  match OrderCreate.image_base64 order with
  | None => ret None
  | Some image_base64 =>
      r <- s3_service.upload_image env image_base64 (OrderCreate.request_id order) ;;
      match r with
      | Uploaded image_url =>
          logger.info ("Image uploaded to S3: " +:+ image_url) ;;;
          ret (Some image_url)
      | S3ServiceError e =>
          logger.warning ("S3 upload failed (continuing without image): " +:+ e) ;;;
          ret None
      end
  end.

(** Lines 174-189: STEP 3, one [OrderItem] and one stock decrement per
    entry.  [item_data["item"].stock] is read from the session's object
    when the call to [update] is made. *)
Fixpoint create_order_items (order_id : Z) (order_items_data : list ItemData) : M unit :=
  match order_items_data with
  | [] => ret tt
  | item_data :: rest =>
      db.add_order_item order_id (item item_data) (quantity item_data) (unit_price item_data) ;;;
      it <- db.item_attrs (item item_data) ;;
      item_manager.update (item item_data)
        [Item.stock_ (Item.stock it - quantity item_data)] ;;;
      create_order_items order_id rest
  end.

(** What a handler that returns an order hands to the response model: the
    row and its loaded lines. *)
Definition Loaded : Type := Order.t * list OrderItem.t.

(** The reload with relationships that every handler ends with. *)
Definition reload (id : Z) : M (option Loaded) :=
  o <- db.query_order_joined id ;;
  s <- get_state ;;
  ret ((λ o, (o, db.lines_of id (txn s))) <$> o).

(** [db.refresh(db_order)] *)
Definition refresh_order (id : Z) : M unit :=
  o <- db.query_order id ;;
  match o with
  | Some _ => ret tt
  | None => raise (SQLAlchemyError (OtherSQLAlchemyError "InvalidRequestError"))
  end.

(** Lines 150-197: the body of the [try]. *)
Definition create_order_try (order : OrderCreate.t) (user_id : Z)
    (order_items_data : list ItemData) (image_url : option string) : M Order.t :=
  db_report <- db.add_flush_report (OrderCreate.technical_report order) user_id ;;
  logger.info ("TechnicalReport created: id=" +:+ pretty (TechnicalReport.id db_report)
    +:+ ", title='" +:+ TechnicalReport.title db_report +:+ "'") ;;;
  db_order <- db.add_flush_order (OrderCreate.request_id order)
                (TechnicalReport.id db_report) PENDING image_url ;;
  create_order_items (Order.id db_order) order_items_data ;;;
  db.commit ;;;
  refresh_order (Order.id db_order) ;;;
  logger.info ("Order created: id=" +:+ pretty (Order.id db_order)
    +:+ ", request_id=" +:+ OrderCreate.request_id order
    +:+ ", technical_report_id=" +:+ pretty (TechnicalReport.id db_report)
    +:+ ", items_count=" +:+ pretty (Z.of_nat (length order_items_data))) ;;;
  ret db_order.

(** Lines 199-228: the two [except] clauses.  [inl] is the [return existing]
    of the first one. *)
Definition create_order_except (order : OrderCreate.t) (e : Exception)
    : M ((Z * option Loaded) + Order.t) :=
  match e with
  | SQLAlchemyError (IntegrityError msg) =>
      db.rollback ;;;
      existing <- order_manager.get_by_field_request_id (OrderCreate.request_id order) ;;
      match existing with
      | Some existing =>
          logger.info ("Race condition detected: Order " +:+ OrderCreate.request_id order
            +:+ " already exists") ;;;
          existing <- reload (Order.id existing) ;;
          ret (inl (HTTP_200_OK, existing))
      | None =>
          logger.error ("IntegrityError creating order: " +:+ msg) ;;;
          raise (HTTPException HTTP_500_INTERNAL_SERVER_ERROR
                   (ERROR_MESSAGES.database_integrity_error "Failed to create order"))
      end
  | SQLAlchemyError (OtherSQLAlchemyError msg) =>
      db.rollback ;;;
      logger.error ("Database error creating order: " +:+ msg) ;;;
      raise (HTTPException HTTP_500_INTERNAL_SERVER_ERROR
               (ERROR_MESSAGES.database_error "Failed to create order"))
  | _ => raise e
  end.

(** [create_order]: the status code of the response and the order
    returned. *)
Definition create_order (env : Env) (order : OrderCreate.t) (user_id : Z)
    : M (Z * option Loaded) :=
  existing_order <- order_manager.get_by_field_request_id (OrderCreate.request_id order) ;;
  match existing_order with
  | Some existing_order =>
      logger.info ("Idempotent request: Order with request_id '"
        +:+ OrderCreate.request_id order +:+ "' already exists (id="
        +:+ pretty (Order.id existing_order) +:+ ")") ;;;
      existing_order <- reload (Order.id existing_order) ;;
      ret (HTTP_200_OK, existing_order)
  | None =>
      match OrderCreate.items order with
      | [] =>
          logger.warning "Attempt to create order with empty items list" ;;;
          raise (HTTPException HTTP_400_BAD_REQUEST ERROR_MESSAGES.order_items_empty)
      | _ =>
          order_items_data <- validate_items (OrderCreate.items order) ;;
          image_url <- upload_optional_image env order ;;
          others_commit env ;;;
          r <- try_except
                 (db_order <- create_order_try order user_id order_items_data image_url ;;
                  ret (inr db_order))
                 (create_order_except order) ;;
          match r with
          | inl response => ret response
          | inr db_order =>
              db_order <- reload (Order.id db_order) ;;
              ret (HTTP_201_CREATED, db_order)
          end
      end
  end.

(** Lines 410-418: restoring the stock of every line of a cancelled order.
    [order_item.item] is the related [Item] object, [None] when there is no
    such row. *)
Fixpoint restore_stock (db_order_items : list OrderItem.t) : M unit :=
  match db_order_items with
  | [] => ret tt
  | order_item :: rest =>
      related <- db.query_item (OrderItem.item_id order_item) ;;
      match related with
      | None => raise (AttributeError "'NoneType' object has no attribute 'stock'")
      | Some ref =>
          it <- db.item_attrs ref ;;
          item_manager.update (OrderItem.item_id order_item)
            [Item.stock_ (Item.stock it + OrderItem.quantity order_item)] ;;;
          restore_stock rest
      end
  end.

(** [update_order_status] *)
Definition update_order_status (order_id : Z) (new_status : OrderStatus)
    : M (option Loaded) :=
  try_except
    (db_order <- reload order_id ;;
     match db_order with
     | None =>
         logger.warning ("Order not found: " +:+ pretty order_id) ;;;
         raise (HTTPException HTTP_404_NOT_FOUND (ERROR_MESSAGES.order_not_found order_id))
     | Some (db_order, db_order_items) =>
         let current_status := value (Order.status db_order) in
         let new_status_str := value new_status in
         let valid_transitions := default [] (VALID_STATUS_TRANSITIONS !! current_status) in
         if bool_decide (new_status_str ∉ valid_transitions) then
           logger.warning ("Invalid status transition: " +:+ current_status
             +:+ " -> " +:+ new_status_str) ;;;
           raise (HTTPException HTTP_400_BAD_REQUEST
                    (ERROR_MESSAGES.order_invalid_status current_status new_status_str))
         else
           (if bool_decide (new_status_str = "cancelled" ∧ current_status ≠ "cancelled") then
              restore_stock db_order_items ;;;
              logger.info ("Order " +:+ pretty order_id +:+ " cancelled, stock restored")
            else ret tt) ;;;
           order_manager.update order_id new_status ;;;
           logger.info ("Order " +:+ pretty order_id +:+ " status updated: "
             +:+ current_status +:+ " -> " +:+ new_status_str) ;;;
           reload order_id
     end)
    (λ e, match e with
          | SQLAlchemyError e' =>
              db.rollback ;;;
              logger.error ("Database error updating order " +:+ pretty order_id
                +:+ " status: " +:+ str e') ;;;
              raise (HTTPException HTTP_500_INTERNAL_SERVER_ERROR
                       (ERROR_MESSAGES.database_error "Failed to update order status"))
          | _ => raise e
          end).

(** [get_order] *)
Definition get_order (order_id : Z) : M Loaded :=
  try_except
    (db_order <- reload order_id ;;
     match db_order with
     | None =>
         logger.warning ("Order not found: " +:+ pretty order_id) ;;;
         raise (HTTPException HTTP_404_NOT_FOUND (ERROR_MESSAGES.order_not_found order_id))
     | Some db_order => ret db_order
     end)
    (λ e, match e with
          | SQLAlchemyError e' =>
              logger.error ("Database error retrieving order " +:+ pretty order_id
                +:+ ": " +:+ str e') ;;;
              raise (HTTPException HTTP_500_INTERNAL_SERVER_ERROR
                       (ERROR_MESSAGES.database_error "Failed to retrieve order"))
          | _ => raise e
          end).

(** The query of [get_order_by_request_id], with its relationships. *)
Definition reload_by_request_id (request_id : string) : M (option Loaded) :=
  o <- db.query_order_joined_by_request_id request_id ;;
  s <- get_state ;;
  ret ((λ o, (o, db.lines_of (Order.id o) (txn s))) <$> o).

(** [get_order_by_request_id] *)
Definition get_order_by_request_id (request_id : string) : M Loaded :=
  try_except
    (db_order <- reload_by_request_id request_id ;;
     match db_order with
     | None =>
         logger.warning ("Order not found by request_id: " +:+ request_id) ;;;
         raise (HTTPException HTTP_404_NOT_FOUND
                  (ERROR_MESSAGES.order_request_id_not_found request_id))
     | Some db_order => ret db_order
     end)
    (λ e, match e with
          | SQLAlchemyError e' =>
              logger.error ("Database error retrieving order by request_id "
                +:+ request_id +:+ ": " +:+ str e') ;;;
              raise (HTTPException HTTP_500_INTERNAL_SERVER_ERROR
                       (ERROR_MESSAGES.database_error "Failed to retrieve order"))
          | _ => raise e
          end).

(** ** routers/items.py *)

(** [delete_item]: the response has status 204 and no body. *)
Definition delete_item (item_id : Z) : M unit :=
  try_except
    (deleted <- item_manager.delete item_id ;;
     if negb deleted then
       logger.warning ("Attempt to delete non-existent item: " +:+ pretty item_id) ;;;
       raise (HTTPException HTTP_404_NOT_FOUND (ERROR_MESSAGES.item_not_found item_id))
     else
       logger.info ("Item deleted successfully: " +:+ pretty item_id))
    (λ e, match e with
          | SQLAlchemyError (IntegrityError msg) =>
              db.rollback ;;;
              logger.error ("Integrity error deleting item " +:+ pretty item_id
                +:+ ": " +:+ msg) ;;;
              raise (HTTPException HTTP_409_CONFLICT
                       "Cannot delete item: it is referenced by existing orders")
          | SQLAlchemyError (OtherSQLAlchemyError msg) =>
              db.rollback ;;;
              logger.error ("Database error deleting item " +:+ pretty item_id
                +:+ ": " +:+ msg) ;;;
              raise (HTTPException HTTP_500_INTERNAL_SERVER_ERROR
                       (ERROR_MESSAGES.database_error "Failed to delete item"))
          | _ => raise e
          end).

(** [get_db]: a request runs its handler on a fresh session; closing the
    session drops what was not committed.  The database after the request
    is [committed] of the final state. *)
Definition get_db {A} (handler : M A) (d : Tables) (plan : nat → option DbError)
    : Result A * State :=
  handler (SessionLocal d plan).

(** * Vocabulary of the statements

    Definitions that the lemmas and theorems below are stated with; none of
    them is part of the program. *)

(** A state that differs from [s] in its identity map only. *)
Definition reloaded (im : gmap Z Item.t) (s : State) : State :=
  set_identity_map (λ _, im) s.

Ltac unfold_state :=
  unfold reloaded, set_committed, set_txn, set_identity_map, set_writes,
    set_log, set_s3_uploads in *;
  simpl in *.

(** The loaded objects agree with the rows of the transaction's view. *)
Definition coherent (s : State) : Prop := identity_map s ⊆ items (txn s).

(** The state after a successful [DBManager(Item).update]: the row is
    rewritten and committed, the object is the only one loaded. *)
Definition item_updated (id : Z) (kwargs : list Item.kwarg) (row : Item.t) (s : State)
    : State :=
  let d := set_items (alter (λ it, foldl Item.setattr it kwargs) id) (txn s) in
  mkState d d {[id := foldl Item.setattr row kwargs]} (faults s) (S (writes s))
          (log s) (s3_uploads s).

(** Reserving the quantity of one entry, of all entries. *)
Definition reserve (m : gmap Z Item.t) (d : ItemData) : gmap Z Item.t :=
  alter (λ it, Item.set_stock (Item.stock it - quantity d) it) (item d) m.

(** The rows STEP 3 appends to [order_items]. *)
Fixpoint add_lines (order_id : Z) (data : list ItemData) (l : list OrderItem.t)
    : list OrderItem.t :=
  match data with
  | [] => l
  | d :: rest =>
      add_lines order_id rest
        (l ++ [OrderItem.mk (next_id (OrderItem.id <$> l)) order_id
                 (item d) (quantity d) (unit_price d)])
  end.

(** No write fails from now on. *)
Definition no_faults_from (s : State) : Prop := ∀ k, (writes s ≤ k)%nat → faults s k = None.

(** A line passes the validation of lines 98-135 on the rows [d]. *)
Definition line_ok (d : Tables) (l : OrderItemCreate.t) : Prop :=
  0 < OrderItemCreate.quantity l ∧
  match items d !! OrderItemCreate.item_id l with
  | Some it => OrderItemCreate.quantity l ≤ Item.stock it
  | None => False
  end.

(** The entry of [order_items_data] that a validated line gives. *)
Definition data_of (d : Tables) (l : OrderItemCreate.t) : ItemData :=
  mkItemData (OrderItemCreate.item_id l) (OrderItemCreate.quantity l)
    (from_option Item.price 0 (items d !! OrderItemCreate.item_id l)).

(** What the upload step leaves behind. *)
Definition image_url_of (env : Env) (order : OrderCreate.t) : option string :=
  match OrderCreate.image_base64 order with
  | None => None
  | Some b =>
      match upload_image env b (OrderCreate.request_id order) with
      | Uploaded url => Some url
      | S3ServiceError _ => None
      end
  end.

(** The log record of the upload step. *)
Definition upload_log (env : Env) (order : OrderCreate.t) : list (Level * string) :=
  match OrderCreate.image_base64 order with
  | None => []
  | Some b =>
      match upload_image env b (OrderCreate.request_id order) with
      | Uploaded url => [(INFO, "Image uploaded to S3: " +:+ url)]
      | S3ServiceError e => [(WARNING, "S3 upload failed (continuing without image): " +:+ e)]
      end
  end.

(** The call of the upload step. *)
Definition upload_calls (order : OrderCreate.t) : list (string * string) :=
  match OrderCreate.image_base64 order with
  | None => []
  | Some b => [(b, OrderCreate.request_id order)]
  end.

(** The [TechnicalReport] row a successful creation adds: STEP 1. *)
Definition created_report (d : Tables) (r : TechnicalReportCreate.t) (user_id : Z)
    : TechnicalReport.t :=
  TechnicalReport.mk (next_id (TechnicalReport.id <$> technical_reports d))
    (TechnicalReportCreate.title r) (TechnicalReportCreate.description r)
    (TechnicalReportCreate.diagnosis r) (TechnicalReportCreate.recommendations r) user_id.

(** The [Order] row: STEP 2. *)
Definition created_order (d : Tables) (order : OrderCreate.t) (image_url : option string)
    : Order.t :=
  Order.mk (next_id (Order.id <$> orders d)) (OrderCreate.request_id order)
    (next_id (TechnicalReport.id <$> technical_reports d)) PENDING image_url.

(** The database after a successful creation. *)
Definition created_db (d : Tables) (order : OrderCreate.t) (user_id : Z)
    (data : list ItemData) (image_url : option string) : Tables :=
  mkTables (foldl reserve (items d) data)
    (technical_reports d ++ [created_report d (OrderCreate.technical_report order) user_id])
    (orders d ++ [created_order d order image_url])
    (add_lines (next_id (Order.id <$> orders d)) data (order_items d)).

(** The two log records of the [try] block. *)
Definition created_log (d : Tables) (order : OrderCreate.t) (data : list ItemData)
    : list (Level * string) :=
  [(INFO, "TechnicalReport created: id="
          +:+ pretty (next_id (TechnicalReport.id <$> technical_reports d))
          +:+ ", title='"
          +:+ TechnicalReportCreate.title (OrderCreate.technical_report order) +:+ "'");
   (INFO, "Order created: id=" +:+ pretty (next_id (Order.id <$> orders d))
          +:+ ", request_id=" +:+ OrderCreate.request_id order
          +:+ ", technical_report_id="
          +:+ pretty (next_id (TechnicalReport.id <$> technical_reports d))
          +:+ ", items_count=" +:+ pretty (Z.of_nat (length data)))].

(** The transition table of the specification. *)
Definition allowed (current new : OrderStatus) : Prop :=
  (current, new) ∈ [(PENDING, IN_PROGRESS); (PENDING, CANCELLED);
                    (IN_PROGRESS, COMPLETED); (IN_PROGRESS, CANCELLED)].

#[global] Instance allowed_dec current new : Decision (allowed current new).
Proof. unfold allowed. apply _. Defined.

(** The rows of [orders] after [setattr(db_obj, "status", v)]. *)
Definition with_status (id : Z) (v : OrderStatus) (l : list Order.t) : list Order.t :=
  (λ o, if bool_decide (Order.id o = id) then Order.set_status v o else o) <$> l.

(** Releasing the quantity of one line. *)
Definition release (m : gmap Z Item.t) (oi : OrderItem.t) : gmap Z Item.t :=
  alter (λ it, Item.set_stock (Item.stock it + OrderItem.quantity oi) it)
        (OrderItem.item_id oi) m.

(** What a rejected transition raises. *)
Definition invalid_transition (current new : OrderStatus) : Exception :=
  HTTPException HTTP_400_BAD_REQUEST
    (ERROR_MESSAGES.order_invalid_status (value current) (value new)).

(** The database after the order [order_id] went to [new]. *)
Definition transitioned_db (d : Tables) (order_id : Z) (new : OrderStatus) : Tables :=
  mkTables
    (if bool_decide (new = CANCELLED)
     then foldl release (items d) (db.lines_of order_id d) else items d)
    (technical_reports d)
    (with_status order_id new (orders d))
    (order_items d).


(** The total quantity the rows of [l] carry for the item [id]. *)
Definition quantity_of {A} (key qty : A → Z) (id : Z) (l : list A) : Z :=
  foldr Z.add 0 (qty <$> filter (λ x, key x = id) l).

(** Adding [sign * qty x] to the stock of the item [key x]. *)
Definition adjust {A} (key qty : A → Z) (sign : Z) (m : gmap Z Item.t) (x : A)
    : gmap Z Item.t :=
  alter (λ it, Item.set_stock (Item.stock it + sign * qty x) it) (key x) m.

(** The stock column. *)
Definition stock_of (d : Tables) (id : Z) : option Z := Item.stock <$> items d !! id.

(** ** Fixtures: the scenario of the specification

    Item 1 costs 25.00 and has a stock of 100; the request R1 orders ten of
    it. *)

Definition brakes : TechnicalReportCreate.t :=
  TechnicalReportCreate.mk "Brake inspection" "Front pads worn" None None.

Definition shop : Tables := mkTables {[1 := Item.mk 2500 100]} [] [] [].

Definition R1 : OrderCreate.t := OrderCreate.mk "R1" brakes [OrderItemCreate.mk 1 10] None.

Definition O1 : Order.t := Order.mk 1 "R1" 1 PENDING None.

(** [shop] after R1 was created by user 7. *)
Definition shop_R1 : Tables :=
  mkTables {[1 := Item.mk 2500 90]}
    [TechnicalReport.mk 1 "Brake inspection" "Front pads worn" None None 7]
    [O1]
    [OrderItem.mk 1 1 1 10 2500].

(** An upload service that is down. *)
Definition no_upload : string → string → Upload := λ _ _, S3ServiceError "unavailable".

Definition every_write_fails : nat → option DbError :=
  λ _, Some (OtherSQLAlchemyError "disk full").

(** A payload that validation would reject (no lines), with an image. *)
Definition R1_again : OrderCreate.t := OrderCreate.mk "R1" brakes [] (Some "aW1n").

(** A second request, with an image. *)
Definition R2 : OrderCreate.t :=
  OrderCreate.mk "R2" brakes [OrderItemCreate.mk 1 10] (Some "aW1n").

(** A storage engine whose n-th write fails with [e]. *)
Definition fails_at (n : nat) (e : DbError) : nat → option DbError :=
  λ k, if (k =? n)%nat then Some e else None.

(** Three items, and a request for one of each. *)
Definition shop3 : Tables :=
  mkTables (<[1 := Item.mk 2500 5]> (<[2 := Item.mk 1000 10]> {[3 := Item.mk 1000 10]}))
    [] [] [].

Definition R3 : OrderCreate.t :=
  OrderCreate.mk "R3" brakes
    [OrderItemCreate.mk 1 1; OrderItemCreate.mk 2 1; OrderItemCreate.mk 3 1] None.

(** An item with a stock of 5, and a request with two lines of 3 for it. *)
Definition shop5 : Tables := mkTables {[1 := Item.mk 2500 5]} [] [] [].

Definition R_twice : OrderCreate.t :=
  OrderCreate.mk "R4" brakes [OrderItemCreate.mk 1 3; OrderItemCreate.mk 1 3] None.

(** A request for one of item 1 and one of item 2. *)
Definition R5 : OrderCreate.t :=
  OrderCreate.mk "R5" brakes [OrderItemCreate.mk 1 1; OrderItemCreate.mk 2 1] None.



(** ** Vocabulary for the behaviour beyond the specification *)

(** The line [l] fails the validation of lines 98-135 on the rows [d], with
    the [detail] of the HTTP 400 it raises: the checks in their order. *)
Definition rejects (d : Tables) (l : OrderItemCreate.t) (detail : string) : Prop :=
  if bool_decide (OrderItemCreate.quantity l ≤ 0)
  then detail = ERROR_MESSAGES.order_invalid_quantity
  else match items d !! OrderItemCreate.item_id l with
       | None => detail = ERROR_MESSAGES.order_item_not_found (OrderItemCreate.item_id l)
       | Some it =>
           Item.stock it < OrderItemCreate.quantity l
           ∧ detail = ERROR_MESSAGES.order_insufficient_stock
                        (OrderItemCreate.item_id l) (Item.stock it)
                        (OrderItemCreate.quantity l)
       end.

(** Another caller has created R1 in the meantime. *)
Definition racing : Env := mkEnv no_upload (λ _, shop_R1).

(** [VALID_STATUS_TRANSITIONS.get(current_status, [])] *)
Definition transitions_from (current_status : string) : list string :=
  default [] (VALID_STATUS_TRANSITIONS !! current_status).

(** ** Outcomes of a run

    [post m s Q R]: run from the state [s], [m] ends in a state [s'] with
    [Q a s'] when it returns [a], with [R e s'] when it raises [e]. *)
Definition post {A} (m : M A) (s : State)
    (Q : A → State → Prop) (R : Exception → State → Prop) : Prop :=
  match m s with
  | (Ok a, s') => Q a s'
  | (Raise e, s') => R e s'
  end.

(** [m] raises nothing but exceptions of the class [E]. *)
Definition raises {A} (E : Exception → Prop) (m : M A) : Prop :=
  ∀ s, post m s (λ _ _, True) (λ e _, E e).

(** [except SQLAlchemyError] catches it. *)
Definition is_db_error (e : Exception) : Prop := ∃ e', e = SQLAlchemyError e'.

(** [m] keeps the invariant [I], whether it returns or raises. *)
Definition keeps {A} (I : State → Prop) (m : M A) : Prop :=
  ∀ s, I s → post m s (λ _ s', I s') (λ _ s', I s').

(** What [create_order] may do to the row of the item [id]: lower its
    stock when a line of the request names it ([ids]), nothing else. *)
Definition lowered (ids : list Z) (id : Z) (row row' : Item.t) : Prop :=
  Item.price row' = Item.price row
  ∧ Item.stock row' ≤ Item.stock row
  ∧ (id ∉ ids → row' = row).

(** What [create_order] may do to the tables: add reports, orders and
    lines after the rows that are there, lower the stock of the items
    named by the request. *)
Definition grown (ids : list Z) (d d' : Tables) : Prop :=
  technical_reports d `prefix_of` technical_reports d'
  ∧ orders d `prefix_of` orders d'
  ∧ order_items d `prefix_of` order_items d'
  ∧ ∀ id, option_Forall2 (lowered ids id) (items d !! id) (items d' !! id).

(** The invariant of a run of [create_order] on the database [d]. *)
Definition creating (ids : list Z) (d : Tables) (s : State) : Prop :=
  grown ids d (txn s) ∧ grown ids d (committed s)
  ∧ ∀ id it, identity_map s !! id = Some it →
             ∃ row, items d !! id = Some row ∧ lowered ids id row it.

(** What [update_order_status] may do to the row of the item [id]: change
    its stock when a line of the order names it ([ids]), nothing else. *)
Definition restocked (ids : list Z) (id : Z) (row row' : Item.t) : Prop :=
  Item.price row' = Item.price row ∧ (id ∉ ids → row' = row).

(** What [update_order_status] may do to the tables, the statuses apart. *)
Definition touched (ids : list Z) (d d' : Tables) : Prop :=
  technical_reports d' = technical_reports d
  ∧ order_items d' = order_items d
  ∧ ∀ id, option_Forall2 (restocked ids id) (items d !! id) (items d' !! id).

(** The invariant of a run of [update_order_status] on the database [d],
    until the status is written. *)
Definition restoring (ids : list Z) (d : Tables) (s : State) : Prop :=
  (touched ids d (txn s) ∧ orders (txn s) = orders d)
  ∧ (touched ids d (committed s) ∧ orders (committed s) = orders d).

(** The errors of [update_order_status] on the database [d]. *)
Definition update_order_status_error (order_id : Z) (new : OrderStatus) (d : Tables)
    (e : Exception) : Prop :=
  ((order_id ∉ Order.id <$> orders d)
   ∧ e = HTTPException 404 ("Order with id " +:+ pretty order_id +:+ " not found"))
  ∨ (∃ o, find (λ x, bool_decide (Order.id x = order_id)) (orders d) = Some o
          ∧ ¬ allowed (Order.status o) new
          ∧ e = invalid_transition (Order.status o) new)
  ∨ e = HTTPException 500 "Database error occurred: Failed to update order status"
  ∨ (∃ msg oi, e = AttributeError msg ∧ new = CANCELLED
               ∧ oi ∈ db.lines_of order_id d ∧ items d !! OrderItem.item_id oi = None).

(** ** The 64-bit columns

    A value can be bound to a statement, as a key to look up or as a
    value to write, when it is in the range of the INTEGER columns. *)
Definition int64 (x : Z) : Prop := - 2 ^ 63 ≤ x < 2 ^ 63.

(** Every stock that restoring the lines [ls] writes, starting from the
    rows [m], fits the column. *)
Fixpoint restore_fits (m : gmap Z Item.t) (ls : list OrderItem.t) : Prop :=
  match ls with
  | [] => True
  | oi :: rest =>
      match m !! OrderItem.item_id oi with
      | Some it => int64 (Item.stock it + OrderItem.quantity oi)
      | None => True
      end
      ∧ restore_fits (release m oi) rest
  end.

(** A keyword argument of [DBManager(Item).update] fits its column:
    [Numeric(10, 2)] for the price, INTEGER for the stock. *)
Definition kwarg_fits (kw : Item.kwarg) : Prop :=
  match kw with
  | Item.price_ v => Z.abs v < 10 ^ 10
  | Item.stock_ v => int64 v
  end.

(** * Verification *)

(** ** Lists of rows *)

Section rows.
Context {A : Type}.

Lemma next_id_gt (ids : list Z) (x : Z) : x ∈ ids → x < next_id ids.
Proof.
  unfold next_id. induction 1 as [x l|x y l _ IH]; simpl; lia.
Qed.

Lemma next_id_fresh (ids : list Z) : next_id ids ∉ ids.
Proof. intros H%next_id_gt. lia. Qed.

Lemma find_app_l (p : A → bool) (l k : list A) (x : A) :
  find p l = Some x → find p (l ++ k) = Some x.
Proof. induction l as [|y l IH]; simpl; [done|]. destruct (p y); auto. Qed.

Lemma find_app_r (p : A → bool) (l k : list A) :
  find p l = None → find p (l ++ k) = find p k.
Proof. induction l as [|y l IH]; simpl; [done|]. destruct (p y); [done|auto]. Qed.

Lemma find_key_None `{EqDecision K} (key : A → K) (l : list A) (k : K) :
  find (λ x, bool_decide (key x = k)) l = None ↔ k ∉ key <$> l.
Proof.
  induction l as [|y l IH]; simpl.
  - split; [|done]. intros _ H. inversion H.
  - rewrite not_elem_of_cons. case_bool_decide; split; try done.
    + intros [? _]. congruence.
    + intros ?. split; [congruence|]. by apply IH.
    + intros [_ ?]. by apply IH.
Qed.

Lemma find_key_Some `{EqDecision K} (key : A → K) (l : list A) (x : A) :
  NoDup (key <$> l) → x ∈ l →
  find (λ y, bool_decide (key y = key x)) l = Some x.
Proof.
  induction l as [|y l IH]; simpl; intros Hnd Hx; [by inversion Hx|].
  apply NoDup_cons in Hnd as [Hy Hnd].
  apply elem_of_cons in Hx as [->|Hx].
  - by rewrite bool_decide_eq_true_2.
  - case_bool_decide as Hk; [|by apply IH].
    exfalso. apply Hy. rewrite Hk. by apply list_elem_of_fmap_2.
Qed.

Lemma find_key_elem `{EqDecision K} (key : A → K) (l : list A) (k : K) (x : A) :
  find (λ y, bool_decide (key y = k)) l = Some x → x ∈ l ∧ key x = k.
Proof.
  induction l as [|y l IH]; simpl; [done|].
  case_bool_decide.
  - intros [= ->]. split; [left|done].
  - intros [??]%IH. split; [by right|done].
Qed.

Lemma find_key_fmap `{EqDecision K} (key : A → K) (g : A → A) (l : list A) (k : K) :
  (∀ x, key (g x) = key x) →
  find (λ y, bool_decide (key y = k)) (g <$> l)
  = g <$> find (λ y, bool_decide (key y = k)) l.
Proof.
  intros Hg. induction l as [|y l IH]; simpl; [done|].
  rewrite Hg. by case_bool_decide.
Qed.
End rows.

(** ** The monad and the session, one step at a time *)

Lemma try_except_ok {A} (m : M A) h s a s' :
  m s = (Ok a, s') → try_except m h s = (Ok a, s').
Proof. unfold try_except. by intros ->. Qed.

Lemma bind_ok {A B} (m : M A) (f : A → M B) s a s' :
  m s = (Ok a, s') → bind m f s = f a s'.
Proof. unfold bind. by intros ->. Qed.

Lemma bind_raise {A B} (m : M A) (f : A → M B) s e s' :
  m s = (Raise e, s') → bind m f s = (Raise e, s').
Proof. unfold bind. by intros ->. Qed.

Lemma coherent_lookup s id it row :
  coherent s → identity_map s !! id = Some it → items (txn s) !! id = Some row → it = row.
Proof.
  intros Hc Hi Hr. pose proof (lookup_weaken _ _ _ _ Hi Hc). congruence.
Qed.

Lemma coherent_insert s id row :
  coherent s → items (txn s) !! id = Some row →
  coherent (set_identity_map <[id := row]> s).
Proof. intros Hc Hr. unfold coherent; simpl. by apply insert_subseteq_l. Qed.

Lemma query_item_Some s id row :
  coherent s → items (txn s) !! id = Some row →
  ∃ im, db.query_item id s = (Ok (Some id), reloaded im s)
        ∧ im !! id = Some row ∧ coherent (reloaded im s).
Proof.
  intros Hc Hr. unfold db.query_item. rewrite Hr.
  destruct (identity_map s !! id) as [it|] eqn:Hi.
  - exists (identity_map s). destruct s; simpl in *.
    rewrite (coherent_lookup _ _ _ _ Hc Hi Hr) in Hi. done.
  - exists (<[id := row]> (identity_map s)). split; [done|].
    split; [by rewrite lookup_insert_eq|]. by apply coherent_insert.
Qed.

Lemma query_item_None s id :
  items (txn s) !! id = None → db.query_item id s = (Ok None, s).
Proof. unfold db.query_item. by intros ->. Qed.

Lemma item_attrs_ok s id row :
  coherent s → items (txn s) !! id = Some row →
  ∃ im, db.item_attrs id s = (Ok row, reloaded im s) ∧ coherent (reloaded im s).
Proof.
  intros Hc Hr. unfold db.item_attrs.
  destruct (identity_map s !! id) as [it|] eqn:Hi.
  - exists (identity_map s). rewrite (coherent_lookup _ _ _ _ Hc Hi Hr).
    by destruct s.
  - rewrite Hr. exists (<[id := row]> (identity_map s)).
    split; [done|]. by apply coherent_insert.
Qed.

Lemma item_manager_get_Some s id row :
  coherent s → items (txn s) !! id = Some row →
  ∃ im, item_manager.get id s = (Ok (Some id), reloaded im s)
        ∧ coherent (reloaded im s).
Proof.
  intros Hc Hr. destruct (query_item_Some s id row Hc Hr) as (im & Hq & _ & Him).
  exists im. split; [|done]. unfold item_manager.get. by apply try_except_ok.
Qed.

Lemma item_manager_update_ok s id kwargs row :
  faults s (writes s) = None → coherent s → items (txn s) !! id = Some row →
  item_manager.update id kwargs s = (Ok (Some id), item_updated id kwargs row s).
Proof.
  intros Hf Hc Hr. unfold item_manager.update. apply try_except_ok.
  destruct (query_item_Some s id row Hc Hr) as (im & Hq & _ & _).
  rewrite (bind_ok _ _ _ _ _ Hq).
  unfold bind, db.item_setattrs, db.commit, db.write, db.refresh_item, modify, bind, ret.
  simpl. rewrite Hf. simpl. rewrite lookup_alter_eq, Hr.
  unfold item_updated. unfold_state. by rewrite insert_empty.
Qed.

Lemma item_updated_coherent s id kwargs row :
  items (txn s) !! id = Some row → coherent (item_updated id kwargs row s).
Proof.
  intros Hr. unfold coherent, item_updated; simpl.
  apply map_singleton_subseteq_l. by rewrite lookup_alter_eq, Hr.
Qed.

(** A failed write inside [DBManager(Item).update] rolls back what is not
    committed and re-raises. *)
Lemma item_manager_update_fault s id kwargs row e :
  faults s (writes s) = Some e → coherent s → items (txn s) !! id = Some row →
  item_manager.update id kwargs s
  = (Raise (SQLAlchemyError e),
     mkState (committed s) (committed s) ∅ (faults s) (S (writes s)) (log s) (s3_uploads s)).
Proof.
  intros Hf Hc Hr. unfold item_manager.update, try_except.
  destruct (query_item_Some s id row Hc Hr) as (im & Hq & _ & _).
  rewrite (bind_ok _ _ _ _ _ Hq).
  unfold bind, db.item_setattrs, db.commit, db.write, db.rollback, modify, bind, raise.
  simpl. rewrite Hf. done.
Qed.

(** ** Order creation without faults *)

Lemma reserve_dom m d id : is_Some (reserve m d !! id) ↔ is_Some (m !! id).
Proof. unfold reserve. by rewrite lookup_alter_is_Some. Qed.

Lemma create_order_items_ok order_id data s :
  no_faults_from s → coherent s →
  Forall (λ d, is_Some (items (txn s) !! item d)) data →
  ∃ s', create_order_items order_id data s = (Ok tt, s')
    ∧ coherent s'
    ∧ items (txn s') = foldl reserve (items (txn s)) data
    ∧ order_items (txn s') = add_lines order_id data (order_items (txn s))
    ∧ orders (txn s') = orders (txn s)
    ∧ technical_reports (txn s') = technical_reports (txn s)
    ∧ faults s' = faults s ∧ writes s' = (writes s + length data)%nat
    ∧ log s' = log s ∧ s3_uploads s' = s3_uploads s.
Proof.
  revert s. induction data as [|d data IH]; intros s Hf Hc Hall.
  - exists s. simpl. rewrite Nat.add_0_r. done.
  - apply Forall_cons in Hall as [[row Hrow] Hall]. simpl.
    set (s1 := set_txn (set_order_items (λ l, l ++
      [OrderItem.mk (next_id (OrderItem.id <$> order_items (txn s))) order_id
         (item d) (quantity d) (unit_price d)])) s).
    assert (Hc1 : coherent s1) by done.
    destruct (item_attrs_ok s1 (item d) row Hc1 Hrow) as (im & Ha & Hc2).
    set (kw := [Item.stock_ (Item.stock row - quantity d)]).
    set (s3 := item_updated (item d) kw row (reloaded im s1)).
    destruct (IH s3) as (s' & Hrun & Hc' & Hi & Hoi & Ho & Hr & Hfa & Hw & Hl & Hs3).
    { intros k Hk. apply Hf. simpl in Hk. lia. }
    { by apply item_updated_coherent. }
    { eapply Forall_impl; [exact Hall|]. simpl. intros d' Hd'.
      by apply lookup_alter_is_Some. }
    exists s'. split.
    { unfold bind at 1. unfold db.add_order_item at 1, bind at 1, get_state, modify. simpl.
      fold s1. rewrite (bind_ok _ _ _ _ _ Ha).
      rewrite (bind_ok _ _ _ (Some (item d)) s3).
      - exact Hrun.
      - apply item_manager_update_ok; [apply Hf; simpl; lia|done|done]. }
    repeat split; try done.
    + rewrite Hi. simpl. f_equal. unfold reserve. apply alter_ext.
      intros x Hx. by replace x with row by congruence.
    + rewrite Hw. simpl. lia.
Qed.

Lemma reloaded_reloaded im im' s : reloaded im' (reloaded im s) = reloaded im' s.
Proof. done. Qed.

Lemma validate_items_ok lines s :
  coherent s → Forall (line_ok (txn s)) lines →
  ∃ im, validate_items lines s = (Ok (data_of (txn s) <$> lines), reloaded im s)
        ∧ coherent (reloaded im s).
Proof.
  revert s. induction lines as [|l lines IH]; intros s Hc Hall.
  - exists (identity_map s). by destruct s.
  - apply Forall_cons in Hall as [[Hq Hl] Hall].
    destruct (items (txn s) !! OrderItemCreate.item_id l) as [row|] eqn:Hrow; [|done].
    destruct (item_manager_get_Some s _ row Hc Hrow) as (im1 & Hget & Hc1).
    destruct (item_attrs_ok (reloaded im1 s) _ row Hc1 Hrow) as (im2 & Hattr & Hc2).
    rewrite reloaded_reloaded in Hattr, Hc2.
    destruct (IH (reloaded im2 s) Hc2 Hall) as (im3 & Hrest & Hc3).
    rewrite reloaded_reloaded in Hrest, Hc3.
    exists im3. split; [|done]. simpl.
    rewrite bool_decide_eq_false_2 by lia.
    rewrite (bind_ok _ _ _ _ _ Hget), (bind_ok _ _ _ _ _ Hattr).
    rewrite bool_decide_eq_false_2 by lia.
    rewrite (bind_ok _ _ _ _ _ Hrest). unfold ret, data_of at 2. simpl.
    by rewrite Hrow.
Qed.

Lemma upload_optional_image_run env order s :
  upload_optional_image env order s
  = (Ok (image_url_of env order),
     set_log (λ l, l ++ upload_log env order)
       (set_s3_uploads (λ l, l ++ upload_calls order) s)).
Proof.
  unfold upload_optional_image, image_url_of, upload_log, upload_calls.
  destruct (OrderCreate.image_base64 order) as [b|].
  - unfold bind, s3_service.upload_image, bind, modify, ret. simpl.
    destruct (upload_image env b (OrderCreate.request_id order)); done.
  - unfold ret. unfold_state. rewrite !app_nil_r. by destruct s.
Qed.

Lemma load_items_reloaded ids s :
  ∃ im, db.load_items ids s = reloaded im s ∧ (coherent s → coherent (reloaded im s)).
Proof.
  unfold db.load_items. revert s. induction ids as [|id ids IH]; intros s; simpl.
  - exists (identity_map s). by destruct s.
  - destruct (items (txn s) !! id) as [row|] eqn:Hrow; [|apply IH].
    destruct (identity_map s !! id); [apply IH|].
    destruct (IH (set_identity_map <[id:=row]> s)) as (im & Him & Hc).
    exists im. rewrite Him. split; [done|].
    intros Hs. apply Hc. by apply coherent_insert.
Qed.

Lemma reload_run id s :
  ∃ im, reload id s
        = (Ok ((λ o, (o, db.lines_of id (txn s)))
                 <$> find (λ o, bool_decide (Order.id o = id)) (orders (txn s))),
           reloaded im s)
        ∧ (coherent s → coherent (reloaded im s)).
Proof.
  unfold reload, bind, db.query_order_joined, get_state, ret.
  destruct (find _ _) as [o|]; simpl.
  - destruct (load_items_reloaded (OrderItem.item_id <$> db.lines_of id (txn s)) s)
      as (im & -> & Hc).
    by exists im.
  - exists (identity_map s). by destruct s.
Qed.

Lemma SessionLocal_coherent d plan : coherent (SessionLocal d plan).
Proof. apply map_empty_subseteq. Qed.

Lemma find_created (d : Tables) (o : Order.t) :
  Order.id o = next_id (Order.id <$> orders d) →
  find (λ x, bool_decide (Order.id x = Order.id o)) (orders d ++ [o]) = Some o.
Proof.
  intros Hid. rewrite find_app_r.
  - simpl. by rewrite bool_decide_eq_true_2.
  - apply find_key_None. rewrite Hid. apply next_id_fresh.
Qed.

Lemma logger_info_run msg s :
  logger.info msg s = (Ok tt, set_log (λ l, l ++ [(INFO, msg)]) s).
Proof. done. Qed.

Lemma logger_warning_run msg s :
  logger.warning msg s = (Ok tt, set_log (λ l, l ++ [(WARNING, msg)]) s).
Proof. done. Qed.

Lemma logger_error_run msg s :
  logger.error msg s = (Ok tt, set_log (λ l, l ++ [(ERROR, msg)]) s).
Proof. done. Qed.

Lemma commit_ok s :
  faults s (writes s) = None →
  db.commit s
  = (Ok tt, mkState (txn s) (txn s) ∅ (faults s) (S (writes s)) (log s) (s3_uploads s)).
Proof. intros Hf. unfold db.commit, bind, db.write. by rewrite Hf. Qed.

Lemma commit_fault s e :
  faults s (writes s) = Some e →
  db.commit s = (Raise (SQLAlchemyError e), set_writes S s).
Proof. intros Hf. unfold db.commit, bind, db.write. by rewrite Hf. Qed.

Lemma add_flush_report_ok r user_id s :
  faults s (writes s) = None →
  db.add_flush_report r user_id s
  = (Ok (created_report (txn s) r user_id),
     set_txn (set_technical_reports (λ l, l ++ [created_report (txn s) r user_id]))
       (set_writes S s)).
Proof. intros Hf. unfold db.add_flush_report, bind, db.flush, db.write. by rewrite Hf. Qed.

Lemma add_flush_order_ok request_id technical_report_id status image_url s :
  faults s (writes s) = None →
  request_id ∉ Order.request_id <$> orders (txn s) →
  db.add_flush_order request_id technical_report_id status image_url s
  = (Ok (Order.mk (next_id (Order.id <$> orders (txn s))) request_id
           technical_report_id status image_url),
     set_txn (set_orders
                (λ l, l ++ [Order.mk (next_id (Order.id <$> orders (txn s))) request_id
                              technical_report_id status image_url]))
       (set_writes S s)).
Proof.
  intros Hf Hrid. unfold db.add_flush_order, bind, db.flush, db.write. rewrite Hf.
  unfold get_state. simpl. by rewrite bool_decide_eq_false_2.
Qed.

Lemma refresh_order_ok id s o :
  find (λ x, bool_decide (Order.id x = id)) (orders (txn s)) = Some o →
  refresh_order id s = (Ok tt, s).
Proof. intros Hfind. unfold refresh_order, bind, db.query_order. by rewrite Hfind. Qed.

Lemma create_order_try_ok order user_id data image_url s :
  no_faults_from s → coherent s →
  OrderCreate.request_id order ∉ Order.request_id <$> orders (txn s) →
  Forall (λ d, is_Some (items (txn s) !! item d)) data →
  ∃ s', create_order_try order user_id data image_url s
        = (Ok (created_order (txn s) order image_url), s')
    ∧ committed s' = created_db (txn s) order user_id data image_url
    ∧ txn s' = committed s'
    ∧ log s' = log s ++ created_log (txn s) order data
    ∧ s3_uploads s' = s3_uploads s.
Proof.
  intros Hf Hc Hrid Hall. unfold create_order_try.
  rewrite (bind_ok _ _ _ _ _ (add_flush_report_ok _ user_id s (Hf _ (le_n _)))).
  rewrite (bind_ok _ _ _ _ _ (logger_info_run _ _)).
  erewrite bind_ok; cycle 1.
  { apply add_flush_order_ok; [apply Hf; simpl; lia|done]. }
  match goal with |- context [bind (create_order_items ?i _) _ ?s1] =>
    destruct (create_order_items_ok i data s1)
      as (s2 & Hrun & Hc2 & Hi & Hoi & Ho & Hr & Hfa & Hw & Hl & Hs3)
  end; [intros k Hk; apply Hf; simpl in Hk; lia|done|done|].
  rewrite (bind_ok _ _ _ _ _ Hrun).
  erewrite bind_ok; cycle 1.
  { apply commit_ok. rewrite Hfa, Hw. apply Hf. simpl. lia. }
  erewrite bind_ok; cycle 1.
  { eapply refresh_order_ok. simpl. rewrite Ho. simpl.
    by apply (find_created (txn s) (created_order (txn s) order image_url)). }
  rewrite (bind_ok _ _ _ _ _ (logger_info_run _ _)).
  eexists. split; [done|]. simpl in *. rewrite Hl, Hs3.
  split; [|split; [done|split; [|done]]].
  - unfold created_db. destruct (txn s2); simpl in *. by subst.
  - by rewrite <-app_assoc.
Qed.

Lemma get_by_field_request_id_run v s :
  order_manager.get_by_field_request_id v s
  = (Ok (find (λ o, bool_decide (Order.request_id o = v)) (orders (txn s))), s).
Proof. done. Qed.

Lemma others_commit_run env s :
  others_commit env s
  = (Ok tt, set_txn (λ _, concurrent env (committed s)) (set_committed (concurrent env) s)).
Proof. done. Qed.

Lemma line_ok_is_Some d l : line_ok d l → is_Some (items d !! item (data_of d l)).
Proof. intros [_ H]. simpl. by destruct (items d !! OrderItemCreate.item_id l). Qed.

(** A valid request on a database without an order of that [request_id],
    no other caller active, no write failing: the order is created. *)
Lemma create_order_created upload order user_id d :
  OrderCreate.request_id order ∉ Order.request_id <$> orders d →
  OrderCreate.items order ≠ [] →
  Forall (line_ok d) (OrderCreate.items order) →
  let env := alone upload in
  let data := data_of d <$> OrderCreate.items order in
  let url := image_url_of env order in
  let d' := created_db d order user_id data url in
  ∃ s', get_db (create_order env order user_id) d no_faults
        = (Ok (HTTP_201_CREATED,
               Some (created_order d order url,
                     db.lines_of (next_id (Order.id <$> orders d)) d')), s')
    ∧ committed s' = d'
    ∧ log s' = upload_log env order ++ created_log d order data
    ∧ s3_uploads s' = upload_calls order.
Proof.
  intros Hrid Hne Hall env data url d'. unfold get_db, create_order.
  rewrite (bind_ok _ _ _ _ _ (get_by_field_request_id_run _ _)). simpl orders.
  replace (find _ (orders d)) with (@None Order.t)
    by (symmetry; by apply find_key_None).
  destruct (OrderCreate.items order) as [|l ls] eqn:Hitems; [done|].
  destruct (validate_items_ok (l :: ls) (SessionLocal d no_faults))
    as (im & Hval & Hc); [apply map_empty_subseteq|done|].
  rewrite (bind_ok _ _ _ _ _ Hval).
  rewrite (bind_ok _ _ _ _ _ (upload_optional_image_run _ _ _)).
  rewrite (bind_ok _ _ _ _ _ (others_commit_run _ _)).
  match goal with |- context [bind (try_except _ _) _ ?s4] =>
    destruct (create_order_try_ok order user_id data url s4)
      as (s5 & Hrun & Hcom & Htxn & Hlog & Hs3)
  end.
  { by intros k _. }
  { exact Hc. }
  { done. }
  { apply Forall_fmap. eapply Forall_impl; [exact Hall|]. apply line_ok_is_Some. }
  simpl in Hrun, Hcom, Hlog, Hs3.
  erewrite bind_ok; cycle 1.
  { apply try_except_ok. rewrite (bind_ok _ _ _ _ _ Hrun). done. }
  destruct (reload_run (Order.id (created_order d order url)) s5) as (im' & Hre & _).
  rewrite (bind_ok _ _ _ _ _ Hre). rewrite Htxn, Hcom. simpl orders.
  rewrite (find_created d (created_order d order url)) by done.
  eexists. split; [done|]. unfold_state. by rewrite Hlog, Hs3.
Qed.

(** ** Status transitions *)

Lemma allowed_not_from_cancelled new : ¬ allowed CANCELLED new.
Proof. destruct new; compute_done. Qed.

Lemma allowed_not_from_completed new : ¬ allowed COMPLETED new.
Proof. destruct new; compute_done. Qed.

Lemma allowed_not_self current : ¬ allowed current current.
Proof. destruct current; compute_done. Qed.

Lemma valid_transitions_allowed current new :
  bool_decide (value new ∉ default [] (VALID_STATUS_TRANSITIONS !! value current))
  = bool_decide (¬ allowed current new).
Proof. by destruct current, new; vm_compute. Qed.

Lemma cancelling_iff current new :
  bool_decide (value new = "cancelled" ∧ value current ≠ "cancelled")
  = bool_decide (new = CANCELLED ∧ current ≠ CANCELLED).
Proof. by destruct current, new; vm_compute. Qed.

Lemma find_with_status id v l :
  find (λ x, bool_decide (Order.id x = id)) (with_status id v l)
  = Order.set_status v <$> find (λ x, bool_decide (Order.id x = id)) l.
Proof.
  induction l as [|o l IH]; simpl; [done|].
  destruct (decide (Order.id o = id)) as [Ho|Ho].
  - rewrite (bool_decide_eq_true_2 _ Ho). simpl.
    by rewrite (bool_decide_eq_true_2 _ Ho).
  - rewrite (bool_decide_eq_false_2 _ Ho). by rewrite (bool_decide_eq_false_2 _ Ho).
Qed.

Lemma order_manager_update_ok id v s o :
  faults s (writes s) = None →
  find (λ x, bool_decide (Order.id x = id)) (orders (txn s)) = Some o →
  order_manager.update id v s
  = (Ok (Some (Order.set_status v o)),
     let d := set_orders (with_status id v) (txn s) in
     mkState d d ∅ (faults s) (S (writes s)) (log s) (s3_uploads s)).
Proof.
  intros Hf Ho. unfold order_manager.update. apply try_except_ok.
  unfold bind at 1, db.query_order at 1. rewrite Ho.
  unfold bind at 1, db.order_set_status, modify.
  erewrite bind_ok; cycle 1.
  { apply commit_ok. exact Hf. }
  unfold db.query_order. simpl. fold (with_status id v (orders (txn s))).
  by rewrite find_with_status, Ho.
Qed.

Lemma order_manager_update_fault id v s o e :
  faults s (writes s) = Some e →
  find (λ x, bool_decide (Order.id x = id)) (orders (txn s)) = Some o →
  order_manager.update id v s
  = (Raise (SQLAlchemyError e),
     mkState (committed s) (committed s) ∅ (faults s) (S (writes s)) (log s)
             (s3_uploads s)).
Proof.
  intros Hf Ho. unfold order_manager.update, try_except.
  unfold bind at 1, db.query_order at 1. rewrite Ho.
  unfold bind at 1, db.order_set_status, modify.
  erewrite bind_raise; cycle 1.
  { apply commit_fault. exact Hf. }
  done.
Qed.

Lemma restore_stock_ok ls s :
  no_faults_from s → coherent s →
  Forall (λ oi, is_Some (items (txn s) !! OrderItem.item_id oi)) ls →
  ∃ s', restore_stock ls s = (Ok tt, s')
    ∧ coherent s'
    ∧ items (txn s') = foldl release (items (txn s)) ls
    ∧ order_items (txn s') = order_items (txn s)
    ∧ orders (txn s') = orders (txn s)
    ∧ technical_reports (txn s') = technical_reports (txn s)
    ∧ faults s' = faults s ∧ writes s' = (writes s + length ls)%nat
    ∧ log s' = log s ∧ s3_uploads s' = s3_uploads s.
Proof.
  revert s. induction ls as [|oi ls IH]; intros s Hf Hc Hall.
  - exists s. simpl. rewrite Nat.add_0_r. done.
  - apply Forall_cons in Hall as [[row Hrow] Hall]. simpl.
    destruct (query_item_Some s _ row Hc Hrow) as (im1 & Hq & _ & Hc1).
    destruct (item_attrs_ok (reloaded im1 s) _ row Hc1 Hrow) as (im2 & Ha & Hc2).
    rewrite reloaded_reloaded in Ha, Hc2.
    set (kw := [Item.stock_ (Item.stock row + OrderItem.quantity oi)]).
    set (s3 := item_updated (OrderItem.item_id oi) kw row (reloaded im2 s)).
    destruct (IH s3) as (s' & Hrun & Hc' & Hi & Hoi & Ho & Hr & Hfa & Hw & Hl & Hs3).
    { intros k Hk. apply Hf. simpl in Hk. lia. }
    { by apply item_updated_coherent. }
    { eapply Forall_impl; [exact Hall|]. simpl. intros d' Hd'.
      by apply lookup_alter_is_Some. }
    exists s'. split.
    { rewrite (bind_ok _ _ _ _ _ Hq), (bind_ok _ _ _ _ _ Ha).
      rewrite (bind_ok _ _ _ (Some (OrderItem.item_id oi)) s3).
      - exact Hrun.
      - apply item_manager_update_ok; [apply Hf; simpl; lia|done|done]. }
    repeat split; try done.
    + rewrite Hi. simpl. f_equal. unfold release. apply alter_ext.
      intros x Hx. by replace x with row by congruence.
    + rewrite Hw. simpl. lia.
Qed.

(** A transition that is not in the table is rejected before anything is
    written. *)
Lemma update_order_status_rejected order_id new d plan o :
  find (λ x, bool_decide (Order.id x = order_id)) (orders d) = Some o →
  ¬ allowed (Order.status o) new →
  ∃ s', get_db (update_order_status order_id new) d plan
        = (Raise (invalid_transition (Order.status o) new), s')
    ∧ committed s' = d ∧ txn s' = d ∧ writes s' = 0%nat.
Proof.
  intros Ho Hna. unfold get_db, update_order_status, try_except.
  destruct (reload_run order_id (SessionLocal d plan)) as (im & Hre & _).
  change (txn (SessionLocal d plan)) with d in Hre.
  rewrite (bind_ok _ _ _ _ _ Hre), Ho. simpl.
  rewrite valid_transitions_allowed, bool_decide_eq_true_2 by done.
  rewrite (bind_ok _ _ _ _ _ (logger_warning_run _ _)).
  unfold raise. eexists. split; [done|]. done.
Qed.

Lemma tables_eq (d d' : Tables) :
  items d = items d' → technical_reports d = technical_reports d' →
  orders d = orders d' → order_items d = order_items d' → d = d'.
Proof. destruct d, d'; simpl; by intros -> -> -> ->. Qed.

(** A transition of the table, no write failing, the items of the lines
    being there: the order moves to [new]. *)
Lemma update_order_status_ok order_id new d o :
  find (λ x, bool_decide (Order.id x = order_id)) (orders d) = Some o →
  allowed (Order.status o) new →
  Forall (λ oi, is_Some (items d !! OrderItem.item_id oi)) (db.lines_of order_id d) →
  ∃ s', get_db (update_order_status order_id new) d no_faults
        = (Ok (Some (Order.set_status new o, db.lines_of order_id d)), s')
    ∧ committed s' = transitioned_db d order_id new.
Proof.
  intros Ho Ha Hall. unfold get_db, update_order_status.
  destruct (reload_run order_id (SessionLocal d no_faults)) as (im & Hre & Hc0).
  specialize (Hc0 (SessionLocal_coherent _ _)).
  change (txn (SessionLocal d no_faults)) with d in Hre.
  assert (Hcur : Order.status o ≠ CANCELLED).
  { intros Hc. rewrite Hc in Ha. by apply allowed_not_from_cancelled in Ha. }
  set (s0 := reloaded im (SessionLocal d no_faults)).
  assert (∃ s1, (if bool_decide (value new = "cancelled"
                                 ∧ value (Order.status o) ≠ "cancelled")
                 then restore_stock (db.lines_of order_id d) ;;;
                      logger.info ("Order " +:+ pretty order_id
                                   +:+ " cancelled, stock restored")
                 else ret tt) s0 = (Ok tt, s1)
            ∧ items (txn s1) = items (transitioned_db d order_id new)
            ∧ order_items (txn s1) = order_items d
            ∧ orders (txn s1) = orders d
            ∧ technical_reports (txn s1) = technical_reports d
            ∧ no_faults_from s1) as (s1 & Hrun & Hi & Hoi & Hos & Hr & Hf).
  { rewrite cancelling_iff. simpl. case_bool_decide as Hcancel.
    - destruct Hcancel as [-> _].
      destruct (restore_stock_ok (db.lines_of order_id d) s0)
        as (s1 & Hrun & _ & Hi & Hoi & Hos & Hr & Hfa & _); [by intros k _|done|done|].
      eexists. split; [by rewrite (bind_ok _ _ _ _ _ Hrun)|].
      simpl. repeat split; try done. intros k _. simpl. by rewrite Hfa.
    - exists s0. split; [done|]. simpl. rewrite bool_decide_eq_false_2; [done|].
      intros ->. by apply Hcancel. }
  unfold try_except.
  rewrite (bind_ok _ _ _ _ _ Hre), Ho. simpl.
  rewrite valid_transitions_allowed, bool_decide_eq_false_2 by (by intros ?).
  fold s0. rewrite (bind_ok _ _ _ _ _ Hrun).
  erewrite bind_ok; cycle 1.
  { apply order_manager_update_ok; [apply Hf; lia|]. rewrite Hos. exact Ho. }
  rewrite (bind_ok _ _ _ _ _ (logger_info_run _ _)).
  match goal with |- context [reload _ ?s2] =>
    destruct (reload_run order_id s2) as (im' & Hre' & _)
  end.
  rewrite Hre'. simpl. rewrite Hos, find_with_status, Ho. simpl.
  unfold db.lines_of at 1. simpl. rewrite Hoi. fold (db.lines_of order_id d).
  eexists. split; [done|]. simpl.
  apply tables_eq; simpl; try done.
  by rewrite Hos.
Qed.

(** ** The idempotency check *)

Lemma create_order_existing env order user_id d plan o :
  NoDup (Order.id <$> orders d) →
  NoDup (Order.request_id <$> orders d) →
  o ∈ orders d →
  Order.request_id o = OrderCreate.request_id order →
  ∃ s', get_db (create_order env order user_id) d plan
        = (Ok (HTTP_200_OK, Some (o, db.lines_of (Order.id o) d)), s')
    ∧ committed s' = d ∧ writes s' = 0%nat ∧ s3_uploads s' = [].
Proof.
  intros Hid Hrid Ho Heq. unfold get_db, create_order.
  rewrite (bind_ok _ _ _ _ _ (get_by_field_request_id_run _ _)).
  change (txn (SessionLocal d plan)) with d.
  rewrite <-Heq, (find_key_Some Order.request_id _ _ Hrid Ho).
  rewrite (bind_ok _ _ _ _ _ (logger_info_run _ _)).
  match goal with |- context [bind (reload _) _ ?s1] =>
    destruct (reload_run (Order.id o) s1) as (im & Hre & _)
  end.
  rewrite (bind_ok _ _ _ _ _ Hre). simpl.
  rewrite (find_key_Some Order.id _ _ Hid Ho). simpl.
  eexists. split; [done|]. done.
Qed.

(** * Properties of the specification *)

(** C4: [update_order_status] allows exactly the transitions
    pending -> in_progress, pending -> cancelled, in_progress -> completed
    and in_progress -> cancelled.  For an order found with status
    [current]: when [(current, new)] is one of the four, the call (no write
    failing, the items of the lines being there and, on a cancellation,
    the restored stocks fitting the 64-bit column) returns the order with
    status [new] and the row is updated; for every other pair, so for
    every self-transition and everything out of completed or cancelled,
    whatever the storage engine does, the call raises HTTP 400 with the
    message naming the current and the requested status, writes nothing
    and leaves the database as it was. *)
Theorem C4_transition_table order_id new d o :
  find (λ x, bool_decide (Order.id x = order_id)) (orders d) = Some o →
  (allowed (Order.status o) new →
   Forall (λ oi, is_Some (items d !! OrderItem.item_id oi)) (db.lines_of order_id d) →
   (new = CANCELLED → restore_fits (items d) (db.lines_of order_id d)) →
   ∃ s', get_db (update_order_status order_id new) d no_faults
         = (Ok (Some (Order.set_status new o, db.lines_of order_id d)), s')
     ∧ orders (committed s') = with_status order_id new (orders d))
  ∧ (¬ allowed (Order.status o) new →
     ∀ plan, ∃ s', get_db (update_order_status order_id new) d plan
         = (Raise (HTTPException 400
                     ("Invalid status transition from " +:+ value (Order.status o)
                      +:+ " to " +:+ value new)), s')
       ∧ committed s' = d ∧ writes s' = 0%nat)
  ∧ ¬ allowed new new ∧ ¬ allowed COMPLETED new ∧ ¬ allowed CANCELLED new.
Proof.
  intros Ho. split; [|split].
  - intros Ha Hall _.
    destruct (update_order_status_ok order_id new d o Ho Ha Hall) as (s' & Hrun & Hcom).
    exists s'. split; [done|]. by rewrite Hcom.
  - intros Hna plan.
    destruct (update_order_status_rejected order_id new d plan o Ho Hna)
      as (s' & Hrun & Hcom & _ & Hw).
    by exists s'.
  - auto using allowed_not_self, allowed_not_from_completed, allowed_not_from_cancelled.
Qed.

Lemma C4_transition_table_witness :
  (∃ s', get_db (update_order_status 1 CANCELLED) shop_R1 no_faults
         = (Ok (Some (Order.set_status CANCELLED O1, db.lines_of 1 shop_R1)), s')
     ∧ orders (committed s') = with_status 1 CANCELLED (orders shop_R1))
  ∧ (∃ s', get_db (update_order_status 1 COMPLETED) shop_R1 every_write_fails
         = (Raise (HTTPException 400
                     "Invalid status transition from pending to completed"), s')
       ∧ committed s' = shop_R1 ∧ writes s' = 0%nat).
Proof.
  split.
  - apply (C4_transition_table 1 CANCELLED shop_R1 O1);
      [reflexivity|compute_done|compute_done|].
    intros _. by vm_compute.
  - apply (C4_transition_table 1 COMPLETED shop_R1 O1); [reflexivity|compute_done].
Defined.

(** C10: the idempotency check comes before everything else.  When an
    order with the [request_id] of the request is persisted, [create_order]
    returns that order with status 200, whatever the rest of the payload
    is (no condition on its lines, quantities, items or stock is assumed),
    whatever the upload service and the storage engine would answer: it
    writes nothing, calls no upload and leaves the database as it was. *)
Theorem C10_idempotency_check_first env order user_id d plan o :
  NoDup (Order.id <$> orders d) →
  NoDup (Order.request_id <$> orders d) →
  o ∈ orders d →
  Order.request_id o = OrderCreate.request_id order →
  ∃ s', get_db (create_order env order user_id) d plan
        = (Ok (HTTP_200_OK, Some (o, db.lines_of (Order.id o) d)), s')
    ∧ committed s' = d ∧ writes s' = 0%nat ∧ s3_uploads s' = [].
Proof. apply create_order_existing. Qed.

Lemma C10_idempotency_check_first_witness :
  ∃ s', get_db (create_order (alone no_upload) R1_again 8) shop_R1 every_write_fails
        = (Ok (HTTP_200_OK, Some (O1, db.lines_of 1 shop_R1)), s')
    ∧ committed s' = shop_R1 ∧ writes s' = 0%nat ∧ s3_uploads s' = [].
Proof.
  apply (C10_idempotency_check_first (alone no_upload) R1_again 8 shop_R1
           every_write_fails O1).
  - compute_done.
  - compute_done.
  - compute_done.
  - reflexivity.
Defined.

(** ** Databases that satisfy their constraints *)

Section keys.
Context {A K : Type} `{EqDecision K} (key : A → K).

Lemma filter_key_nil (l : list A) (k : K) :
  k ∉ key <$> l → filter (λ y, key y = k) l = [].
Proof.
  induction l as [|y l IH]; [done|]. rewrite fmap_cons, not_elem_of_cons.
  intros [Hy Hl]. rewrite filter_cons_False by congruence. by apply IH.
Qed.


End keys.






(** ** Totals and price snapshots *)








(** ** Stock arithmetic *)

Section stock.
Context {A : Type} (key qty : A → Z) (sign : Z).

Lemma quantity_of_cons id x l :
  quantity_of key qty id (x :: l)
  = (if decide (key x = id) then qty x else 0) + quantity_of key qty id l.
Proof.
  unfold quantity_of. rewrite filter_cons. destruct (decide (key x = id)); [|lia].
  by rewrite fmap_cons.
Qed.

Lemma foldl_adjust_lookup m l id :
  foldl (adjust key qty sign) m l !! id
  = (λ it, Item.set_stock (Item.stock it + sign * quantity_of key qty id l) it) <$> m !! id.
Proof.
  revert m. induction l as [|x l IH]; intros m.
  - simpl. destruct (m !! id) as [[p s]|]; [|done]. simpl. unfold Item.set_stock. simpl.
    do 2 f_equal. unfold quantity_of. simpl. lia.
  - simpl. rewrite IH, quantity_of_cons. unfold adjust.
    destruct (decide (key x = id)) as [->|Hne].
    + rewrite lookup_alter_eq. destruct (m !! id) as [[p s]|]; [|done]. simpl.
      unfold Item.set_stock. simpl. do 2 f_equal. lia.
    + rewrite lookup_alter_ne by done. by destruct (m !! id) as [[p s]|].
Qed.
End stock.

Lemma quantity_of_pairs {A} (key qty : A → Z) id (l : list A) :
  quantity_of key qty id l = quantity_of fst snd id ((λ x, (key x, qty x)) <$> l).
Proof.
  induction l as [|x l IH]; [done|].
  rewrite fmap_cons, !quantity_of_cons, IH. done.
Qed.


Lemma foldl_reserve_adjust m data :
  foldl reserve m data = foldl (adjust item quantity (-1)) m data.
Proof.
  revert m. induction data as [|x data IH]; intros m; [done|]. simpl. rewrite IH.
  apply (f_equal (λ m', foldl _ m' data)).
  unfold reserve, adjust. apply alter_ext. intros it _. apply (f_equal (λ v, Item.set_stock v it)). lia.
Qed.


Lemma stock_of_reserve d data id m :
  m = foldl reserve (items d) data →
  Item.stock <$> m !! id
  = (λ v, v - quantity_of item quantity id data) <$> stock_of d id.
Proof.
  intros ->. unfold stock_of. rewrite foldl_reserve_adjust, foldl_adjust_lookup.
  destruct (items d !! id) as [[p s]|]; [|done]. simpl.
  apply (f_equal Some). lia.
Qed.


(** A transition to a status other than cancelled leaves the items as they
    are, whatever the storage engine does. *)
Lemma update_order_status_keeps_items order_id new d plan :
  new ≠ CANCELLED →
  ∃ r s', get_db (update_order_status order_id new) d plan = (r, s')
    ∧ items (committed s') = items d.
Proof.
  intros Hnew. unfold get_db, update_order_status, try_except.
  destruct (reload_run order_id (SessionLocal d plan)) as (im & Hre & _).
  change (txn (SessionLocal d plan)) with d in Hre.
  rewrite (bind_ok _ _ _ _ _ Hre).
  destruct (find _ (orders d)) as [o|] eqn:Ho; simpl.
  - rewrite valid_transitions_allowed.
    destruct (decide (allowed (Order.status o) new)) as [Ha|Ha].
    2: { rewrite bool_decide_eq_true_2 by done.
         rewrite (bind_ok _ _ _ _ _ (logger_warning_run _ _)). by eexists _, _. }
    rewrite bool_decide_eq_false_2 by (by intros ?).
    rewrite cancelling_iff, bool_decide_eq_false_2 by (by intros [? _]).
    unfold bind at 1, ret.
    destruct (plan 0%nat) as [e|] eqn:Hplan.
    + erewrite bind_raise; cycle 1.
      { by apply (order_manager_update_fault _ _ _ o e). }
      by eexists _, _.
    + erewrite bind_ok; cycle 1.
      { by apply (order_manager_update_ok _ _ _ o). }
      rewrite (bind_ok _ _ _ _ _ (logger_info_run _ _)).
      match goal with |- context [reload _ ?s2] =>
        destruct (reload_run order_id s2) as (im' & -> & _)
      end.
      by eexists _, _.
  - by eexists _, _.
Qed.





(** ** Losing the race on [request_id] *)

Lemma add_flush_order_duplicate request_id technical_report_id status image_url s :
  faults s (writes s) = None →
  request_id ∈ Order.request_id <$> orders (txn s) →
  db.add_flush_order request_id technical_report_id status image_url s
  = (Raise (SQLAlchemyError (IntegrityError "UNIQUE constraint failed: orders.request_id")),
     set_writes S s).
Proof.
  intros Hf Hrid. unfold db.add_flush_order, bind, db.flush, db.write. rewrite Hf.
  unfold get_state. simpl. by rewrite bool_decide_eq_true_2.
Qed.

(** Another caller commits an order with the same [request_id] after this
    request has checked for one: the INSERT of this request's order
    violates the unique constraint, the request rolls back and answers
    with the winner's order and status 200; nothing of its own attempt is
    persisted. *)
Lemma create_order_lost_race env order user_id d plan winner :
  OrderCreate.request_id order ∉ Order.request_id <$> orders d →
  OrderCreate.items order ≠ [] →
  Forall (line_ok d) (OrderCreate.items order) →
  plan 0%nat = None → plan 1%nat = None →
  NoDup (Order.id <$> orders (concurrent env d)) →
  NoDup (Order.request_id <$> orders (concurrent env d)) →
  winner ∈ orders (concurrent env d) →
  Order.request_id winner = OrderCreate.request_id order →
  ∃ s', get_db (create_order env order user_id) d plan
        = (Ok (HTTP_200_OK,
               Some (winner, db.lines_of (Order.id winner) (concurrent env d))), s')
    ∧ committed s' = concurrent env d.
Proof.
  intros Hnew Hne Hall Hp0 Hp1 Hid Hrid Hw Heq. unfold get_db, create_order.
  rewrite (bind_ok _ _ _ _ _ (get_by_field_request_id_run _ _)).
  change (txn (SessionLocal d plan)) with d.
  replace (find _ (orders d)) with (@None Order.t)
    by (symmetry; by apply find_key_None).
  destruct (OrderCreate.items order) as [|l ls] eqn:Hitems; [done|].
  destruct (validate_items_ok (l :: ls) (SessionLocal d plan))
    as (im & Hval & Hc); [apply map_empty_subseteq|done|].
  rewrite (bind_ok _ _ _ _ _ Hval).
  rewrite (bind_ok _ _ _ _ _ (upload_optional_image_run _ _ _)).
  rewrite (bind_ok _ _ _ _ _ (others_commit_run _ _)).
  unfold bind at 1, try_except. unfold bind at 1. unfold create_order_try.
  erewrite bind_ok; cycle 1.
  { by apply add_flush_report_ok. }
  rewrite (bind_ok _ _ _ _ _ (logger_info_run _ _)).
  erewrite bind_raise; cycle 1.
  { apply add_flush_order_duplicate; [done|]. simpl.
    rewrite <-Heq. by apply list_elem_of_fmap_2. }
  unfold create_order_except.
  unfold bind at 1, db.rollback, modify.
  rewrite (bind_ok _ _ _ _ _ (get_by_field_request_id_run _ _)). simpl.
  rewrite <-Heq, (find_key_Some Order.request_id _ _ Hrid Hw).
  rewrite (bind_ok _ _ _ _ _ (logger_info_run _ _)).
  match goal with |- context [bind (reload _) _ ?s1] =>
    destruct (reload_run (Order.id winner) s1) as (im' & Hre & _)
  end.
  rewrite (bind_ok _ _ _ _ _ Hre). simpl.
  rewrite (find_key_Some Order.id _ _ Hid Hw).
  eexists. split; [done|]. done.
Qed.

(** The scenario of the specification, run: create R1 (stock 100 -> 90,
    total 10 x 25.00), repeat R1 (same order, stock stays 90), cancel
    (stock 100), cancel again (rejected). *)
Example scenario :
  let first := get_db (create_order (alone no_upload) R1 7) shop no_faults in
  let second := get_db (create_order (alone no_upload) R1 7) (committed first.2) no_faults in
  let cancel := get_db (update_order_status 1 CANCELLED) (committed second.2) no_faults in
  let again := get_db (update_order_status 1 CANCELLED) (committed cancel.2) no_faults in
  first.1 = Ok (201, Some (O1, [OrderItem.mk 1 1 1 10 2500]))
  ∧ committed first.2 = shop_R1
  ∧ total_amount (db.lines_of 1 (committed first.2)) = 10 * 2500
  ∧ second.1 = Ok (200, Some (O1, [OrderItem.mk 1 1 1 10 2500]))
  ∧ stock_of (committed second.2) 1 = Some 90
  ∧ stock_of (committed cancel.2) 1 = Some 100
  ∧ again.1 = Raise (invalid_transition CANCELLED CANCELLED)
  ∧ stock_of (committed again.2) 1 = Some 100.
Proof. repeat split; by vm_compute. Qed.

(** * Where the code departs from the specification

    [DBManager.update] commits.  [create_order] and [update_order_status]
    call it once per line, inside what they treat as one transaction:
    every call makes durable whatever the session has flushed or added so
    far, and the [db.rollback()] of the handlers can only undo what came
    after the last of these commits. *)

(** C1 (the code departs from it): the request R3 passes validation; the
    writes for the report, the order and the first two lines succeed, the
    write for the third line fails.  The caller gets HTTP 500, and yet the
    report, the order and the first two lines are persisted and the stock
    of the first two items is decremented. *)
Theorem C1_failed_creation_is_partly_persisted :
  let run := get_db (create_order (alone no_upload) R3 7) shop3
               (fails_at 4 (OtherSQLAlchemyError "disk I/O error")) in
  Forall (line_ok shop3) (OrderCreate.items R3)
  ∧ run.1 = Raise (HTTPException 500 "Database error occurred: Failed to create order")
  ∧ technical_reports (committed run.2)
    = [TechnicalReport.mk 1 "Brake inspection" "Front pads worn" None None 7]
  ∧ orders (committed run.2) = [Order.mk 1 "R3" 1 PENDING None]
  ∧ order_items (committed run.2)
    = [OrderItem.mk 1 1 1 1 2500; OrderItem.mk 2 1 2 1 1000]
  ∧ stock_of shop3 1 = Some 5 ∧ stock_of (committed run.2) 1 = Some 4
  ∧ stock_of shop3 2 = Some 10 ∧ stock_of (committed run.2) 2 = Some 9
  ∧ stock_of (committed run.2) 3 = Some 10.
Proof.
  split; [repeat constructor; vm_compute; discriminate|].
  repeat split; by vm_compute.
Qed.

(** C3 (the code departs from it): each of the two lines is validated
    against the stock of 5 and passes; the two decrements are then applied
    one after the other to the same [Item] object.  The order is created
    with status 201 and the stock of the item is -1. *)
Theorem C3_two_lines_same_item_overdraw :
  let run := get_db (create_order (alone no_upload) R_twice 7) shop5 no_faults in
  stock_of shop5 1 = Some 5
  ∧ (∃ o ls, run.1 = Ok (HTTP_201_CREATED, Some (o, ls))
             ∧ OrderItem.quantity <$> ls = [3; 3])
  ∧ stock_of (committed run.2) 1 = Some (-1).
Proof.
  split; [by vm_compute|]. split; [|by vm_compute].
  eexists _, _. split; [by vm_compute|]. by vm_compute.
Qed.

(** C6 (the code departs from it): no order with the [request_id] R5
    exists and no other caller is active.  The write for the second line
    fails with an [IntegrityError] (which is no violation of the unique
    constraint on [request_id]: the order row was inserted before).  The
    handler rolls back, finds by [request_id] the order its own first
    line had committed, and answers 200 with that order, which has one
    line instead of two: the failure is not surfaced. *)
Theorem C6_integrity_error_after_first_line :
  let run := get_db (create_order (alone no_upload) R5 7) shop3
               (fails_at 3 (IntegrityError "FOREIGN KEY constraint failed")) in
  orders shop3 = []
  ∧ run.1 = Ok (HTTP_200_OK,
                Some (Order.mk 1 "R5" 1 PENDING None, [OrderItem.mk 1 1 1 1 2500]))
  ∧ orders (committed run.2) = [Order.mk 1 "R5" 1 PENDING None]
  ∧ order_items (committed run.2) = [OrderItem.mk 1 1 1 1 2500]
  ∧ stock_of (committed run.2) 1 = Some 4
  ∧ stock_of (committed run.2) 2 = Some 10.
Proof. repeat split; by vm_compute. Qed.

(** C7 (the code departs from it): cancelling the order of [shop_R1].
    The write that restores the stock of its line succeeds, the write of
    the status fails.  The caller gets HTTP 500; the stock is restored
    (100 instead of 90) and the order is still pending, so that it can be
    cancelled again: a second call then restores the stock a second
    time. *)
Theorem C7_stock_restored_but_status_kept :
  let run := get_db (update_order_status 1 CANCELLED) shop_R1
               (fails_at 1 (OtherSQLAlchemyError "disk I/O error")) in
  let again := get_db (update_order_status 1 CANCELLED) (committed run.2) no_faults in
  run.1 = Raise (HTTPException 500
                   "Database error occurred: Failed to update order status")
  ∧ stock_of shop_R1 1 = Some 90
  ∧ stock_of (committed run.2) 1 = Some 100
  ∧ orders (committed run.2) = [O1]
  ∧ Order.status O1 = PENDING
  ∧ stock_of (committed again.2) 1 = Some 110.
Proof. repeat split; by vm_compute. Qed.

(** * Behaviour beyond the specification *)

(** ** Requests that validation rejects *)

Lemma validate_items_reject pre bad post s detail :
  coherent s → Forall (line_ok (txn s)) pre → rejects (txn s) bad detail →
  ∃ im msg, validate_items (pre ++ bad :: post) s
            = (Raise (HTTPException HTTP_400_BAD_REQUEST detail),
               set_log (λ l, l ++ [(WARNING, msg)]) (reloaded im s)).
Proof.
  revert s. induction pre as [|l pre IH]; intros s Hc Hall Hbad.
  - unfold rejects in Hbad. simpl.
    destruct (decide (OrderItemCreate.quantity bad ≤ 0)) as [Hq|Hq].
    + rewrite bool_decide_eq_true_2 in Hbad |- * by done. subst detail.
      exists (identity_map s). eexists. unfold bind, logger.warning, modify, raise.
      by destruct s.
    + rewrite bool_decide_eq_false_2 in Hbad |- * by done.
      destruct (items (txn s) !! OrderItemCreate.item_id bad) as [row|] eqn:Hrow.
      * destruct Hbad as [Hlt ->].
        destruct (item_manager_get_Some s _ row Hc Hrow) as (im1 & Hget & Hc1).
        destruct (item_attrs_ok (reloaded im1 s) _ row Hc1 Hrow) as (im2 & Hattr & Hc2).
        rewrite reloaded_reloaded in Hattr.
        rewrite (bind_ok _ _ _ _ _ Hget), (bind_ok _ _ _ _ _ Hattr).
        rewrite bool_decide_eq_true_2 by done.
        exists im2. eexists. by unfold bind, logger.warning, modify, raise.
      * subst detail. unfold item_manager.get.
        erewrite bind_ok; cycle 1.
        { apply try_except_ok. by apply query_item_None. }
        exists (identity_map s). eexists. unfold bind, logger.warning, modify, raise.
        by destruct s.
  - apply Forall_cons in Hall as [[Hq Hl] Hall].
    destruct (items (txn s) !! OrderItemCreate.item_id l) as [row|] eqn:Hrow; [|done].
    destruct (item_manager_get_Some s _ row Hc Hrow) as (im1 & Hget & Hc1).
    destruct (item_attrs_ok (reloaded im1 s) _ row Hc1 Hrow) as (im2 & Hattr & Hc2).
    rewrite reloaded_reloaded in Hattr, Hc2.
    destruct (IH (reloaded im2 s) Hc2 Hall Hbad) as (im3 & msg & Hrest).
    exists im3, msg. simpl.
    rewrite bool_decide_eq_false_2 by lia.
    rewrite (bind_ok _ _ _ _ _ Hget), (bind_ok _ _ _ _ _ Hattr).
    rewrite bool_decide_eq_false_2 by lia.
    by rewrite (bind_raise _ _ _ _ _ Hrest).
Qed.

(** A request whose lines are not all valid is answered with the HTTP 400
    of its first invalid line, before any upload and any write. *)
Lemma create_order_rejected env order user_id d plan pre bad post detail :
  OrderCreate.request_id order ∉ Order.request_id <$> orders d →
  OrderCreate.items order = pre ++ bad :: post →
  Forall (line_ok d) pre →
  rejects d bad detail →
  ∃ s', get_db (create_order env order user_id) d plan
        = (Raise (HTTPException 400 detail), s')
    ∧ committed s' = d ∧ writes s' = 0%nat ∧ s3_uploads s' = [].
Proof.
  intros Hnew Hitems Hpre Hbad. unfold get_db, create_order.
  rewrite (bind_ok _ _ _ _ _ (get_by_field_request_id_run _ _)).
  change (txn (SessionLocal d plan)) with d.
  replace (find _ (orders d)) with (@None Order.t)
    by (symmetry; by apply find_key_None).
  destruct (validate_items_reject pre bad post (SessionLocal d plan) detail)
    as (im & msg & Hval); [apply SessionLocal_coherent|done|done|].
  rewrite Hitems.
  destruct (pre ++ bad :: post) as [|l ls] eqn:Hl; [by destruct pre|].
  rewrite (bind_raise _ _ _ _ _ Hval). by eexists.
Qed.

(** X1: an order without lines.  When no order has the [request_id] of the
    request and its list of items is empty, [create_order] raises
    HTTP 400 "Order must contain at least one item"; it writes nothing,
    calls no upload and leaves the database as it was, whatever the
    upload service and the storage engine would do. *)
Theorem X1_create_order_empty_items env order user_id d plan :
  OrderCreate.request_id order ∉ Order.request_id <$> orders d →
  OrderCreate.items order = [] →
  ∃ s', get_db (create_order env order user_id) d plan
        = (Raise (HTTPException 400 "Order must contain at least one item"), s')
    ∧ committed s' = d ∧ writes s' = 0%nat ∧ s3_uploads s' = [].
Proof.
  intros Hnew Hitems. unfold get_db, create_order.
  rewrite (bind_ok _ _ _ _ _ (get_by_field_request_id_run _ _)).
  change (txn (SessionLocal d plan)) with d.
  replace (find _ (orders d)) with (@None Order.t)
    by (symmetry; by apply find_key_None).
  rewrite Hitems. rewrite (bind_ok _ _ _ _ _ (logger_warning_run _ _)).
  by eexists.
Qed.

Lemma X1_create_order_empty_items_witness :
  ∃ s', get_db (create_order (alone no_upload)
                  (OrderCreate.mk "R9" brakes [] (Some "aW1n")) 7) shop_R1 no_faults
        = (Raise (HTTPException 400 "Order must contain at least one item"), s')
    ∧ committed s' = shop_R1 ∧ writes s' = 0%nat ∧ s3_uploads s' = [].
Proof.
  apply (X1_create_order_empty_items (alone no_upload)
           (OrderCreate.mk "R9" brakes [] (Some "aW1n")) 7 shop_R1 no_faults).
  - compute_done.
  - reflexivity.
Defined.

(** X2: a quantity that is not positive.  When no order has the
    [request_id], the lines before [bad] are valid and the quantity of
    [bad] is zero or negative, [create_order] raises HTTP 400 "Quantity
    must be greater than 0", whether the item of [bad] exists or not and
    whatever follows it; no upload, no write, database unchanged. *)
Theorem X2_create_order_invalid_quantity env order user_id d plan pre bad post :
  OrderCreate.request_id order ∉ Order.request_id <$> orders d →
  OrderCreate.items order = pre ++ bad :: post →
  Forall (line_ok d) pre →
  OrderItemCreate.quantity bad ≤ 0 →
  ∃ s', get_db (create_order env order user_id) d plan
        = (Raise (HTTPException 400 "Quantity must be greater than 0"), s')
    ∧ committed s' = d ∧ writes s' = 0%nat ∧ s3_uploads s' = [].
Proof.
  intros Hnew Hitems Hpre Hq.
  apply (create_order_rejected env order user_id d plan pre bad post); try done.
  unfold rejects. by rewrite bool_decide_eq_true_2.
Qed.

Lemma X2_create_order_invalid_quantity_witness :
  ∃ s', get_db (create_order (alone no_upload)
                  (OrderCreate.mk "R9" brakes
                     [OrderItemCreate.mk 1 2; OrderItemCreate.mk 99 0] (Some "aW1n")) 7)
          shop_R1 no_faults
        = (Raise (HTTPException 400 "Quantity must be greater than 0"), s')
    ∧ committed s' = shop_R1 ∧ writes s' = 0%nat ∧ s3_uploads s' = [].
Proof.
  apply (X2_create_order_invalid_quantity (alone no_upload) _ 7 shop_R1 no_faults
           [OrderItemCreate.mk 1 2] (OrderItemCreate.mk 99 0) []).
  - compute_done.
  - reflexivity.
  - repeat constructor. vm_compute. discriminate.
  - simpl. lia.
Defined.

(** X3: an item that does not exist.  When no order has the [request_id],
    the lines before [bad] are valid, the quantity of [bad] is positive
    and no item has its [item_id] (an id in the range of the column),
    [create_order] raises HTTP 400 "Item with id N not found for order";
    no upload, no write, database unchanged. *)
Theorem X3_create_order_item_not_found env order user_id d plan pre bad post :
  OrderCreate.request_id order ∉ Order.request_id <$> orders d →
  OrderCreate.items order = pre ++ bad :: post →
  Forall (line_ok d) pre →
  0 < OrderItemCreate.quantity bad →
  int64 (OrderItemCreate.item_id bad) →
  items d !! OrderItemCreate.item_id bad = None →
  ∃ s', get_db (create_order env order user_id) d plan
        = (Raise (HTTPException 400
                    ("Item with id " +:+ pretty (OrderItemCreate.item_id bad)
                     +:+ " not found for order")), s')
    ∧ committed s' = d ∧ writes s' = 0%nat ∧ s3_uploads s' = [].
Proof.
  intros Hnew Hitems Hpre Hq _ Hnone.
  apply (create_order_rejected env order user_id d plan pre bad post); try done.
  unfold rejects. rewrite bool_decide_eq_false_2 by lia. by rewrite Hnone.
Qed.

Lemma X3_create_order_item_not_found_witness :
  ∃ s', get_db (create_order (alone no_upload)
                  (OrderCreate.mk "R9" brakes
                     [OrderItemCreate.mk 1 2; OrderItemCreate.mk 99 1] (Some "aW1n")) 7)
          shop_R1 no_faults
        = (Raise (HTTPException 400 "Item with id 99 not found for order"), s')
    ∧ committed s' = shop_R1 ∧ writes s' = 0%nat ∧ s3_uploads s' = [].
Proof.
  apply (X3_create_order_item_not_found (alone no_upload) _ 7 shop_R1 no_faults
           [OrderItemCreate.mk 1 2] (OrderItemCreate.mk 99 1) []).
  - compute_done.
  - reflexivity.
  - repeat constructor. vm_compute. discriminate.
  - simpl. lia.
  - by vm_compute.
  - reflexivity.
Defined.

(** X4: not enough stock.  When no order has the [request_id], the lines
    before [bad] are valid, the quantity of [bad] is positive and its
    item has less stock than that, [create_order] raises HTTP 400 with
    the item, the available and the requested quantity in the message;
    no upload, no write, the stock of every item is what it was. *)
Theorem X4_create_order_insufficient_stock env order user_id d plan pre bad post it :
  OrderCreate.request_id order ∉ Order.request_id <$> orders d →
  OrderCreate.items order = pre ++ bad :: post →
  Forall (line_ok d) pre →
  0 < OrderItemCreate.quantity bad →
  items d !! OrderItemCreate.item_id bad = Some it →
  Item.stock it < OrderItemCreate.quantity bad →
  ∃ s', get_db (create_order env order user_id) d plan
        = (Raise (HTTPException 400
                    ("Insufficient stock for item "
                     +:+ pretty (OrderItemCreate.item_id bad)
                     +:+ ". Available: " +:+ pretty (Item.stock it)
                     +:+ ", Requested: " +:+ pretty (OrderItemCreate.quantity bad))), s')
    ∧ committed s' = d ∧ writes s' = 0%nat ∧ s3_uploads s' = [].
Proof.
  intros Hnew Hitems Hpre Hq Hit Hlt.
  apply (create_order_rejected env order user_id d plan pre bad post); try done.
  unfold rejects. rewrite bool_decide_eq_false_2 by lia. by rewrite Hit.
Qed.

Lemma X4_create_order_insufficient_stock_witness :
  ∃ s', get_db (create_order (alone no_upload)
                  (OrderCreate.mk "R9" brakes [OrderItemCreate.mk 1 91] (Some "aW1n")) 7)
          shop_R1 no_faults
        = (Raise (HTTPException 400
                    "Insufficient stock for item 1. Available: 90, Requested: 91"), s')
    ∧ committed s' = shop_R1 ∧ writes s' = 0%nat ∧ s3_uploads s' = [].
Proof.
  apply (X4_create_order_insufficient_stock (alone no_upload) _ 7 shop_R1 no_faults
           [] (OrderItemCreate.mk 1 91) [] (Item.mk 2500 90)).
  - compute_done.
  - reflexivity.
  - constructor.
  - simpl. lia.
  - reflexivity.
  - simpl. lia.
Defined.

(** X5: an unknown order.  When no order has the id (an id in the range
    of the column), [update_order_status] raises HTTP 404 "Order with id N
    not found", for every target status and whatever the storage engine
    does; it writes nothing and leaves the database as it was. *)
Theorem X5_update_order_status_not_found order_id new d plan :
  int64 order_id →
  order_id ∉ Order.id <$> orders d →
  ∃ s', get_db (update_order_status order_id new) d plan
        = (Raise (HTTPException 404
                    ("Order with id " +:+ pretty order_id +:+ " not found")), s')
    ∧ committed s' = d ∧ writes s' = 0%nat.
Proof.
  intros _ Hid. unfold get_db, update_order_status, try_except.
  destruct (reload_run order_id (SessionLocal d plan)) as (im & Hre & _).
  change (txn (SessionLocal d plan)) with d in Hre.
  rewrite (bind_ok _ _ _ _ _ Hre).
  replace (find _ (orders d)) with (@None Order.t)
    by (symmetry; by apply find_key_None).
  simpl. by eexists.
Qed.

Lemma X5_update_order_status_not_found_witness :
  ∃ s', get_db (update_order_status 5 CANCELLED) shop_R1 every_write_fails
        = (Raise (HTTPException 404 "Order with id 5 not found"), s')
    ∧ committed s' = shop_R1 ∧ writes s' = 0%nat.
Proof.
  apply (X5_update_order_status_not_found 5 CANCELLED shop_R1 every_write_fails).
  - by vm_compute.
  - compute_done.
Defined.

(** X6: losing the race on [request_id].  The request finds no order
    with its [request_id] and passes validation; before its first write
    another caller commits an order [winner] with that [request_id] (the
    database the request then sees satisfies the key constraints of
    [orders]).  The first two writes are accepted by the storage engine.
    Then the INSERT of this request's order violates the unique
    constraint, the handler rolls back, and the answer is status 200 with
    the winner's order and its lines; the database is the one the other
    caller left: nothing of this request's attempt, not even its
    technical report, is persisted. *)
Theorem X6_lost_race_returns_winner env order user_id d plan winner :
  OrderCreate.request_id order ∉ Order.request_id <$> orders d →
  OrderCreate.items order ≠ [] →
  Forall (line_ok d) (OrderCreate.items order) →
  plan 0%nat = None → plan 1%nat = None →
  NoDup (Order.id <$> orders (concurrent env d)) →
  NoDup (Order.request_id <$> orders (concurrent env d)) →
  winner ∈ orders (concurrent env d) →
  Order.request_id winner = OrderCreate.request_id order →
  ∃ s', get_db (create_order env order user_id) d plan
        = (Ok (HTTP_200_OK,
               Some (winner, db.lines_of (Order.id winner) (concurrent env d))), s')
    ∧ committed s' = concurrent env d
    ∧ technical_reports (committed s') = technical_reports (concurrent env d).
Proof.
  intros Hnew Hne Hall Hp0 Hp1 Hid Hrid Hw Heq.
  destruct (create_order_lost_race env order user_id d plan winner
              Hnew Hne Hall Hp0 Hp1 Hid Hrid Hw Heq) as (s' & Hrun & Hdb).
  exists s'. split; [exact Hrun|]. split; [exact Hdb|]. by rewrite Hdb.
Qed.

(** The race, run: the other caller has created R1 while this request for
    R1 was being validated. *)
Lemma X6_lost_race_returns_winner_witness :
  ∃ s', get_db (create_order racing R1 8) shop no_faults
        = (Ok (HTTP_200_OK, Some (O1, db.lines_of 1 shop_R1)), s')
    ∧ committed s' = shop_R1
    ∧ technical_reports (committed s') = technical_reports shop_R1.
Proof.
  apply (X6_lost_race_returns_winner racing R1 8 shop no_faults O1).
  - compute_done.
  - discriminate.
  - repeat constructor. vm_compute. discriminate.
  - reflexivity.
  - reflexivity.
  - compute_done.
  - compute_done.
  - compute_done.
  - reflexivity.
Defined.

(** ** Stock of orders whose lines name distinct items *)

Lemma quantity_of_notin {A} (key qty : A → Z) id (l : list A) :
  id ∉ key <$> l → quantity_of key qty id l = 0.
Proof. intros Hid. unfold quantity_of. by rewrite (filter_key_nil key). Qed.

Lemma quantity_of_NoDup {A} (key qty : A → Z) (l : list A) x :
  NoDup (key <$> l) → x ∈ l → quantity_of key qty (key x) l = qty x.
Proof.
  induction l as [|y l IH]; intros Hnd Hx; [by inversion Hx|].
  rewrite fmap_cons in Hnd. apply NoDup_cons in Hnd as [Hy Hnd].
  rewrite quantity_of_cons. apply elem_of_cons in Hx as [->|Hx].
  - rewrite decide_True by done. rewrite quantity_of_notin by done. lia.
  - rewrite decide_False; [by rewrite IH|].
    intros Hk. apply Hy. rewrite Hk. by apply list_elem_of_fmap_2.
Qed.

(** The stock after a creation, for any valid request. *)
Lemma create_order_stock upload order user_id d :
  OrderCreate.request_id order ∉ Order.request_id <$> orders d →
  OrderCreate.items order ≠ [] →
  Forall (line_ok d) (OrderCreate.items order) →
  ∃ o ls s',
    get_db (create_order (alone upload) order user_id) d no_faults
    = (Ok (HTTP_201_CREATED, Some (o, ls)), s')
    ∧ ∀ id, stock_of (committed s') id
            = (λ v, v - quantity_of OrderItemCreate.item_id OrderItemCreate.quantity id
                          (OrderCreate.items order)) <$> stock_of d id.
Proof.
  intros Hnew Hne Hall.
  destruct (create_order_created upload order user_id d Hnew Hne Hall)
    as (s' & Hrun & Hcom & _).
  eexists _, _, s'. split; [exact Hrun|]. rewrite Hcom. intros id.
  unfold stock_of at 1.
  rewrite (stock_of_reserve d (data_of d <$> OrderCreate.items order) id) by done.
  f_equal.
  rewrite (quantity_of_pairs item), (quantity_of_pairs OrderItemCreate.item_id).
  by rewrite <-list_fmap_compose.
Qed.

(** ** A failing upload *)



(** X7: stock of an order whose lines name pairwise distinct items.  For a
    request that passes validation (no order with its [request_id] yet,
    no write failing, no other caller) and in which no item occurs in two
    lines, [create_order] creates the order and the stock of the item of
    every line goes down by exactly the quantity of that line, the stock
    of every other item is unchanged, and if no stock was negative before
    none is negative after. *)
Theorem X7_distinct_items_stock upload order user_id d :
  OrderCreate.request_id order ∉ Order.request_id <$> orders d →
  OrderCreate.items order ≠ [] →
  Forall (line_ok d) (OrderCreate.items order) →
  NoDup (OrderItemCreate.item_id <$> OrderCreate.items order) →
  ∃ o ls s',
    get_db (create_order (alone upload) order user_id) d no_faults
    = (Ok (HTTP_201_CREATED, Some (o, ls)), s')
    ∧ (∀ l, l ∈ OrderCreate.items order →
            stock_of (committed s') (OrderItemCreate.item_id l)
            = (λ v, v - OrderItemCreate.quantity l)
                <$> stock_of d (OrderItemCreate.item_id l))
    ∧ (∀ id, id ∉ OrderItemCreate.item_id <$> OrderCreate.items order →
             stock_of (committed s') id = stock_of d id)
    ∧ ((∀ id v, stock_of d id = Some v → 0 ≤ v) →
       ∀ id v, stock_of (committed s') id = Some v → 0 ≤ v).
Proof.
  intros Hnew Hne Hall Hnd.
  destruct (create_order_stock upload order user_id d Hnew Hne Hall)
    as (o & ls & s' & Hrun & Hstock).
  assert (Hline : ∀ l, l ∈ OrderCreate.items order →
            stock_of (committed s') (OrderItemCreate.item_id l)
            = (λ v, v - OrderItemCreate.quantity l)
                <$> stock_of d (OrderItemCreate.item_id l)).
  { intros l Hl. rewrite Hstock. by rewrite quantity_of_NoDup. }
  assert (Hother : ∀ id, id ∉ OrderItemCreate.item_id <$> OrderCreate.items order →
             stock_of (committed s') id = stock_of d id).
  { intros id Hid. rewrite Hstock, quantity_of_notin by done.
    destruct (stock_of d id); simpl; [f_equal; lia|done]. }
  exists o, ls, s'. split; [exact Hrun|]. split; [exact Hline|]. split; [exact Hother|].
  intros Hpos id v Hv.
  destruct (decide (id ∈ OrderItemCreate.item_id <$> OrderCreate.items order)) as [Hin|Hout].
  - apply list_elem_of_fmap in Hin as (l & -> & Hl).
    rewrite Hline in Hv by done.
    rewrite Forall_forall in Hall. destruct (Hall l Hl) as [_ Hok].
    unfold stock_of in Hv.
    destruct (items d !! OrderItemCreate.item_id l) as [it|]; [|done].
    simpl in Hv. injection Hv as <-. lia.
  - rewrite Hother in Hv by done. by apply (Hpos id).
Qed.

Lemma X7_distinct_items_stock_witness :
  ∃ o ls s',
    get_db (create_order (alone no_upload) R3 7) shop3 no_faults
    = (Ok (HTTP_201_CREATED, Some (o, ls)), s')
    ∧ stock_of (committed s') 1 = Some 4
    ∧ stock_of (committed s') 2 = Some 9
    ∧ stock_of (committed s') 3 = Some 9
    ∧ stock_of (committed s') 4 = None.
Proof.
  destruct (X7_distinct_items_stock no_upload R3 7 shop3)
    as (o & ls & s' & Hrun & Hline & Hother & _).
  - compute_done.
  - discriminate.
  - repeat constructor; vm_compute; discriminate.
  - compute_done.
  - exists o, ls, s'. split; [exact Hrun|].
    split; [etrans; [apply (Hline (OrderItemCreate.mk 1 1)); repeat constructor|done]|].
    split; [etrans; [apply (Hline (OrderItemCreate.mk 2 1)); repeat constructor|done]|].
    split; [etrans; [apply (Hline (OrderItemCreate.mk 3 1)); repeat constructor|done]|].
    etrans; [apply (Hother 4); compute_done|done].
Defined.

(** ** Reading orders *)

Lemma get_order_run order_id d plan :
  ∃ s', get_db (get_order order_id) d plan
        = (match find (λ o, bool_decide (Order.id o = order_id)) (orders d) with
           | Some o => Ok (o, db.lines_of order_id d)
           | None => Raise (HTTPException 404
                              ("Order with id " +:+ pretty order_id +:+ " not found"))
           end, s')
    ∧ committed s' = d ∧ txn s' = d ∧ writes s' = 0%nat.
Proof.
  unfold get_db, get_order, try_except.
  destruct (reload_run order_id (SessionLocal d plan)) as (im & Hre & _).
  change (txn (SessionLocal d plan)) with d in Hre.
  rewrite (bind_ok _ _ _ _ _ Hre).
  destruct (find _ (orders d)) as [o|]; simpl; by eexists.
Qed.

(** X8: [get_order] only reads.  For an id in the range of the column,
    it returns the first order with the id, with the lines of that id,
    and raises HTTP 404 "Order with id N not found" exactly when no order
    has the id; in both cases nothing is written and the database is
    unchanged, whatever the storage engine would answer to writes. *)
Theorem X8_get_order order_id d plan :
  int64 order_id →
  ∃ s', get_db (get_order order_id) d plan
        = (match find (λ o, bool_decide (Order.id o = order_id)) (orders d) with
           | Some o => Ok (o, db.lines_of order_id d)
           | None => Raise (HTTPException 404
                              ("Order with id " +:+ pretty order_id +:+ " not found"))
           end, s')
    ∧ (order_id ∉ Order.id <$> orders d
       ↔ find (λ o, bool_decide (Order.id o = order_id)) (orders d) = None)
    ∧ committed s' = d ∧ txn s' = d ∧ writes s' = 0%nat.
Proof.
  intros _. destruct (get_order_run order_id d plan) as (s' & Hrun & Hrest).
  exists s'. split; [exact Hrun|]. split; [|exact Hrest].
  symmetry. apply (find_key_None Order.id).
Qed.

Lemma X8_get_order_witness :
  (∃ s', get_db (get_order 1) shop_R1 every_write_fails
         = (match find (λ o, bool_decide (Order.id o = 1)) (orders shop_R1) with
            | Some o => Ok (o, db.lines_of 1 shop_R1)
            | None => Raise (HTTPException 404
                               ("Order with id " +:+ pretty 1 +:+ " not found"))
            end, s')
     ∧ (1 ∉ Order.id <$> orders shop_R1
        ↔ find (λ o, bool_decide (Order.id o = 1)) (orders shop_R1) = None)
     ∧ committed s' = shop_R1 ∧ txn s' = shop_R1 ∧ writes s' = 0%nat)
  ∧ find (λ o, bool_decide (Order.id o = 1)) (orders shop_R1) = Some O1.
Proof.
  split; [|reflexivity].
  apply (X8_get_order 1 shop_R1 every_write_fails). by vm_compute.
Defined.

Lemma reload_by_request_id_run v s :
  ∃ im, reload_by_request_id v s
        = (Ok ((λ o, (o, db.lines_of (Order.id o) (txn s)))
                 <$> find (λ o, bool_decide (Order.request_id o = v)) (orders (txn s))),
           reloaded im s).
Proof.
  unfold reload_by_request_id, bind, db.query_order_joined_by_request_id, get_state, ret.
  destruct (find _ _) as [o|]; simpl.
  - destruct (load_items_reloaded
                (OrderItem.item_id <$> db.lines_of (Order.id o) (txn s)) s)
      as (im & -> & _).
    by exists im.
  - exists (identity_map s). by destruct s.
Qed.

Lemma get_order_by_request_id_run request_id d plan :
  ∃ s', get_db (get_order_by_request_id request_id) d plan
        = (match find (λ o, bool_decide (Order.request_id o = request_id)) (orders d) with
           | Some o => Ok (o, db.lines_of (Order.id o) d)
           | None => Raise (HTTPException 404
                              ("Order with request_id " +:+ request_id +:+ " not found"))
           end, s')
    ∧ committed s' = d ∧ txn s' = d ∧ writes s' = 0%nat.
Proof.
  unfold get_db, get_order_by_request_id, try_except.
  destruct (reload_by_request_id_run request_id (SessionLocal d plan)) as (im & Hre).
  change (txn (SessionLocal d plan)) with d in Hre.
  rewrite (bind_ok _ _ _ _ _ Hre).
  destruct (find _ (orders d)) as [o|]; simpl; by eexists.
Qed.

(** X9: [get_order_by_request_id] only reads.  It returns the first order
    with the [request_id], with its lines, and raises HTTP 404 "Order
    with request_id R not found" exactly when no order has it; nothing
    is written and the database is unchanged. *)
Theorem X9_get_order_by_request_id request_id d plan :
  ∃ s', get_db (get_order_by_request_id request_id) d plan
        = (match find (λ o, bool_decide (Order.request_id o = request_id)) (orders d) with
           | Some o => Ok (o, db.lines_of (Order.id o) d)
           | None => Raise (HTTPException 404
                              ("Order with request_id " +:+ request_id +:+ " not found"))
           end, s')
    ∧ (request_id ∉ Order.request_id <$> orders d
       ↔ find (λ o, bool_decide (Order.request_id o = request_id)) (orders d) = None)
    ∧ committed s' = d ∧ txn s' = d ∧ writes s' = 0%nat.
Proof.
  destruct (get_order_by_request_id_run request_id d plan) as (s' & Hrun & Hrest).
  exists s'. split; [exact Hrun|]. split; [|exact Hrest].
  symmetry. apply (find_key_None Order.request_id).
Qed.



(** ** A cancelled order keeps its [request_id] *)






(** ** The transition table as a graph *)

Lemma transitions_from_cases a :
  (a = "pending" ∧ transitions_from a = ["in_progress"; "cancelled"])
  ∨ (a = "in_progress" ∧ transitions_from a = ["completed"; "cancelled"])
  ∨ transitions_from a = [].
Proof.
  destruct (decide (a = "pending")) as [->|H1]; [by left|].
  destruct (decide (a = "in_progress")) as [->|H2]; [by right; left|].
  right; right. unfold transitions_from.
  destruct (VALID_STATUS_TRANSITIONS !! a) as [l|] eqn:Hl; [|done].
  apply elem_of_list_to_map_2 in Hl.
  repeat (apply elem_of_cons in Hl as [Hl|Hl]; [by simplify_eq|]).
  by apply elem_of_nil in Hl.
Qed.

(** X12: the transition table is a graph without cycles, of depth two.
    The keys of [VALID_STATUS_TRANSITIONS] are the four statuses of
    [VALID_ORDER_STATUSES], which are the values of [OrderStatus]; a
    string that is no status has no transition.  Every transition leads
    from a status to a different status; there is no way back after a
    transition; completed and cancelled have none; and no chain of three
    transitions exists, so an order changes status at most twice. *)
Theorem X12_transition_graph :
  dom VALID_STATUS_TRANSITIONS = VALID_ORDER_STATUSES
  ∧ (∀ v, v ∈ VALID_ORDER_STATUSES ↔ ∃ s, value s = v)
  ∧ (∀ a, a ∉ VALID_ORDER_STATUSES → transitions_from a = [])
  ∧ (∀ a b, b ∈ transitions_from a →
            a ∈ VALID_ORDER_STATUSES ∧ b ∈ VALID_ORDER_STATUSES ∧ a ≠ b)
  ∧ (∀ a b, b ∈ transitions_from a → a ∉ transitions_from b)
  ∧ transitions_from "completed" = [] ∧ transitions_from "cancelled" = []
  ∧ (∀ a b c d, b ∈ transitions_from a → c ∈ transitions_from b →
                d ∉ transitions_from c).
Proof.
  assert (Hmem : ∀ v, v ∈ VALID_ORDER_STATUSES
            ↔ v = "pending" ∨ v = "in_progress" ∨ v = "completed" ∨ v = "cancelled").
  { intros v. unfold VALID_ORDER_STATUSES, ORDER_STATUS_PENDING, ORDER_STATUS_IN_PROGRESS,
      ORDER_STATUS_COMPLETED, ORDER_STATUS_CANCELLED.
    rewrite !elem_of_union, !elem_of_singleton. tauto. }
  assert (Hstep : ∀ a b, b ∈ transitions_from a →
            (a = "pending" ∧ (b = "in_progress" ∨ b = "cancelled"))
            ∨ (a = "in_progress" ∧ (b = "completed" ∨ b = "cancelled"))).
  { intros a b Hb.
    destruct (transitions_from_cases a) as [[-> Ha]|[[-> Ha]|Ha]]; rewrite Ha in Hb.
    - left. split; [done|]. rewrite !elem_of_cons, elem_of_nil in Hb. tauto.
    - right. split; [done|]. rewrite !elem_of_cons, elem_of_nil in Hb. tauto.
    - by apply elem_of_nil in Hb. }
  split.
  { apply set_eq. intros v. rewrite Hmem, elem_of_dom. split.
    - intros [l Hl]. apply elem_of_list_to_map_2 in Hl.
      rewrite !elem_of_cons, elem_of_nil in Hl.
      destruct Hl as [Hl|[Hl|[Hl|[Hl|[]]]]]; injection Hl as Hv _; rewrite Hv; tauto.
    - intros [->|[->|[->| ->]]]; by eexists. }
  split.
  { intros v. rewrite Hmem. split.
    - intros [->|[->|[->| ->]]];
        [by exists PENDING|by exists IN_PROGRESS|by exists COMPLETED|by exists CANCELLED].
    - intros [[] <-]; simpl; tauto. }
  split.
  { intros a Ha. rewrite Hmem in Ha.
    destruct (transitions_from_cases a) as [[-> _]|[[-> _]|Hnil]]; [tauto|tauto|done]. }
  split.
  { intros a b Hb. rewrite !Hmem.
    destruct (Hstep a b Hb) as [[-> [->| ->]]|[-> [->| ->]]];
      (split; [tauto|split; [tauto|discriminate]]). }
  split.
  { intros a b Hab Hba.
    destruct (Hstep a b Hab) as [[-> [->| ->]]|[-> [->| ->]]];
      destruct (Hstep _ _ Hba) as [[? [?|?]]|[? [?|?]]]; simplify_eq. }
  split; [done|]. split; [done|].
  intros a b c d Hab Hbc Hcd.
  destruct (Hstep a b Hab) as [[-> [->| ->]]|[-> [->| ->]]];
    destruct (Hstep _ _ Hbc) as [[? [->| ->]]|[? [->| ->]]]; simplify_eq;
    destruct (Hstep _ _ Hcd) as [[? [?|?]]|[? [?|?]]]; simplify_eq.
Qed.

(** ** [DBManager]: one call, one transaction *)

Lemma alter_lookup_insert (f : Item.t → Item.t) (m : gmap Z Item.t) id row :
  m !! id = Some row → alter f id m = <[id := f row]> m.
Proof.
  intros Hr. apply map_eq. intros j. destruct (decide (j = id)) as [->|Hj].
  - by rewrite lookup_alter_eq, lookup_insert_eq, Hr.
  - by rewrite lookup_alter_ne, lookup_insert_ne.
Qed.

(** X13: what one call of [DBManager.update] leaves, for an id and new
    values in the range of their columns.  When no row has the id it
    returns [None] without writing.  When the row is there and the
    storage engine refuses the commit, the error is re-raised as it is and
    the database is unchanged.  When the row is there and the commit is
    accepted (the refresh that follows it being served), it returns the
    object, refreshed from the row; the row in the database carries the
    new values and every other row of every table is as before. *)
Theorem X13_item_update_commit d id kwargs plan :
  int64 id →
  Forall kwarg_fits kwargs →
  let run := get_db (item_manager.update id kwargs) d plan in
  match items d !! id, plan 0%nat with
  | None, _ => run.1 = Ok None ∧ committed run.2 = d ∧ writes run.2 = 0%nat
  | Some row, None =>
      run.1 = Ok (Some id)
      ∧ committed run.2 = set_items <[id := foldl Item.setattr row kwargs]> d
      ∧ identity_map run.2 !! id = Some (foldl Item.setattr row kwargs)
  | Some row, Some e =>
      run.1 = Raise (SQLAlchemyError e) ∧ committed run.2 = d ∧ txn run.2 = d
  end.
Proof.
  intros _ _. unfold get_db. destruct (items d !! id) as [row|] eqn:Hrow.
  - destruct (plan 0%nat) as [e|] eqn:Hplan.
    + by rewrite (item_manager_update_fault (SessionLocal d plan) id kwargs row e Hplan
                    (SessionLocal_coherent _ _) Hrow).
    + rewrite (item_manager_update_ok (SessionLocal d plan) id kwargs row Hplan
                 (SessionLocal_coherent _ _) Hrow).
      unfold item_updated. simpl. split; [done|]. split.
      * unfold set_items. simpl. by rewrite (alter_lookup_insert _ _ _ row Hrow).
      * by rewrite lookup_singleton_eq.
  - unfold item_manager.update, try_except.
    by rewrite (bind_ok _ _ _ _ _ (query_item_None (SessionLocal d plan) id Hrow)).
Qed.

Lemma X13_item_update_commit_witness :
  (let run := get_db (item_manager.update 1 [Item.price_ 9900; Item.stock_ 5])
                shop no_faults in
   run.1 = Ok (Some 1)
   ∧ committed run.2 = set_items <[1 := Item.mk 9900 5]> shop
   ∧ identity_map run.2 !! 1 = Some (Item.mk 9900 5))
  ∧ (let run := get_db (item_manager.update 1 [Item.stock_ 5]) shop every_write_fails in
     run.1 = Raise (SQLAlchemyError (OtherSQLAlchemyError "disk full"))
     ∧ committed run.2 = shop ∧ txn run.2 = shop).
Proof.
  split.
  - apply (X13_item_update_commit shop 1 [Item.price_ 9900; Item.stock_ 5] no_faults).
    + by vm_compute.
    + repeat constructor; by vm_compute.
  - apply (X13_item_update_commit shop 1 [Item.stock_ 5] every_write_fails).
    + by vm_compute.
    + repeat constructor; by vm_compute.
Defined.

Lemma item_manager_get_run d id plan :
  ∃ im, get_db (item_manager.get id) d plan
        = (Ok (match items d !! id with Some _ => Some id | None => None end), reloaded im (SessionLocal d plan)).
Proof.
  unfold get_db, item_manager.get, try_except, db.query_item.
  change (txn (SessionLocal d plan)) with d.
  destruct (items d !! id) as [row|]; [|by exists ∅].
  simpl. by eexists.
Qed.

(** X14: [DBManager.get] and [DBManager.exists] only read.  For an id in
    the range of the column, [get] returns an object exactly when a row
    has the id, [exists] answers whether one has; nothing is written and
    the database is unchanged. *)
Theorem X14_item_get_exists d id plan :
  int64 id →
  let got := get_db (item_manager.get id) d plan in
  let run := get_db (item_manager.exists_ id) d plan in
  got.1 = Ok (match items d !! id with Some _ => Some id | None => None end)
  ∧ run.1 = Ok (bool_decide (id ∈ dom (items d)))
  ∧ committed got.2 = d ∧ committed run.2 = d
  ∧ writes got.2 = 0%nat ∧ writes run.2 = 0%nat.
Proof.
  intros _. destruct (item_manager_get_run d id plan) as (im & Hget).
  unfold get_db in *. unfold item_manager.exists_.
  rewrite (bind_ok _ _ _ _ _ Hget), Hget. simpl.
  repeat split; try done. unfold ret. simpl. f_equal.
  destruct (items d !! id) as [row|] eqn:Hrow.
  - rewrite !bool_decide_eq_true_2; [done| |by eexists].
    apply elem_of_dom. by eexists.
  - rewrite !bool_decide_eq_false_2; [done| |by intros [? ?]].
    rewrite elem_of_dom, Hrow. by intros [? ?].
Qed.

Lemma X14_item_get_exists_witness :
  let got := get_db (item_manager.get 1) shop every_write_fails in
  let run := get_db (item_manager.exists_ 2) shop every_write_fails in
  (got.1 = Ok (Some 1) ∧ committed got.2 = shop ∧ writes got.2 = 0%nat)
  ∧ (run.1 = Ok false ∧ committed run.2 = shop ∧ writes run.2 = 0%nat).
Proof.
  split.
  - destruct (X14_item_get_exists shop 1 every_write_fails) as (Hg & _ & Hc & _ & Hw & _);
      [by vm_compute|]. by split.
  - destruct (X14_item_get_exists shop 2 every_write_fails) as (_ & Hr & _ & Hc & _ & Hw);
      [by vm_compute|]. by split.
Defined.

(** ** Deleting an item *)

(** The answers of [delete_item]. *)
Lemma delete_item_run item_id d plan :
  let run := get_db (delete_item item_id) d plan in
  match items d !! item_id, plan 0%nat with
  | None, _ =>
      run.1 = Raise (HTTPException 404 ("Item with id " +:+ pretty item_id +:+ " not found"))
      ∧ committed run.2 = d ∧ writes run.2 = 0%nat
  | Some _, Some (IntegrityError _) =>
      run.1 = Raise (HTTPException 409
                       "Cannot delete item: it is referenced by existing orders")
      ∧ committed run.2 = d
  | Some _, Some (OtherSQLAlchemyError _) =>
      run.1 = Raise (HTTPException 500 "Database error occurred: Failed to delete item")
      ∧ committed run.2 = d
  | Some _, None =>
      if bool_decide (item_id ∈ OrderItem.item_id <$> order_items d)
      then run.1 = Raise (HTTPException 409
                            "Cannot delete item: it is referenced by existing orders")
           ∧ committed run.2 = d
      else run.1 = Ok tt ∧ committed run.2 = set_items (delete item_id) d
  end.
Proof.
  unfold get_db, delete_item. unfold try_except at 1. unfold bind at 1.
  unfold item_manager.delete, try_except.
  destruct (items d !! item_id) as [row|] eqn:Hrow.
  - destruct (query_item_Some (SessionLocal d plan) item_id row
                (SessionLocal_coherent _ _) Hrow) as (im & Hq & _ & _).
    unfold bind, db.delete_commit_item, db.write, bind, get_state, db.rollback,
      logger.error, logger.info, modify, raise, ret.
    rewrite Hq. simpl. destruct (plan 0%nat) as [[msg|msg]|]; simpl; [done|done|].
    case_bool_decide; simpl; done.
  - unfold bind. by rewrite (query_item_None (SessionLocal d plan) item_id Hrow).
Qed.

(** X15: [delete_item], for an id in the range of the column.  An id that
    no item has is answered with HTTP 404 "Item with id N not found" and
    nothing is written.  An item that a
    line of some order references cannot be deleted: the answer is HTTP
    409 "Cannot delete item: it is referenced by existing orders".  An
    item that no line references is deleted when the storage engine
    accepts the write: its row is gone and every other row of every table
    is as before.  A write the storage engine refuses is answered with
    409 ([IntegrityError]) or 500 (any other database error).  Whenever
    the answer is an error, the database is unchanged. *)
Theorem X15_delete_item item_id d plan :
  int64 item_id →
  let run := get_db (delete_item item_id) d plan in
  match items d !! item_id, plan 0%nat with
  | None, _ =>
      run.1 = Raise (HTTPException 404 ("Item with id " +:+ pretty item_id +:+ " not found"))
      ∧ committed run.2 = d ∧ writes run.2 = 0%nat
  | Some _, Some (IntegrityError _) =>
      run.1 = Raise (HTTPException 409
                       "Cannot delete item: it is referenced by existing orders")
      ∧ committed run.2 = d
  | Some _, Some (OtherSQLAlchemyError _) =>
      run.1 = Raise (HTTPException 500 "Database error occurred: Failed to delete item")
      ∧ committed run.2 = d
  | Some _, None =>
      if bool_decide (item_id ∈ OrderItem.item_id <$> order_items d)
      then run.1 = Raise (HTTPException 409
                            "Cannot delete item: it is referenced by existing orders")
           ∧ committed run.2 = d
      else run.1 = Ok tt ∧ committed run.2 = set_items (delete item_id) d
  end.
Proof. intros _. apply delete_item_run. Qed.

Lemma X15_delete_item_witness :
  (let run := get_db (delete_item 2) shop3 no_faults in
   run.1 = Ok tt ∧ committed run.2 = set_items (delete 2) shop3)
  ∧ (let run := get_db (delete_item 1) shop_R1 no_faults in
     run.1 = Raise (HTTPException 409
                      "Cannot delete item: it is referenced by existing orders")
     ∧ committed run.2 = shop_R1)
  ∧ (let run := get_db (delete_item 7) shop_R1 no_faults in
     run.1 = Raise (HTTPException 404 "Item with id 7 not found")
     ∧ committed run.2 = shop_R1 ∧ writes run.2 = 0%nat).
Proof.
  split; [|split].
  - apply (X15_delete_item 2 shop3 no_faults). by vm_compute.
  - apply (X15_delete_item 1 shop_R1 no_faults). by vm_compute.
  - apply (X15_delete_item 7 shop_R1 no_faults). by vm_compute.
Defined.

(** X16: [delete_item] keeps the references of the lines.  When every
    line of the database names an item that exists, the same holds after
    [delete_item], whichever item it is asked to delete and whatever the
    storage engine answers; the orders, the lines and the reports are
    never touched. *)
Theorem X16_delete_item_keeps_references item_id d plan :
  Forall (λ oi, is_Some (items d !! OrderItem.item_id oi)) (order_items d) →
  let d' := committed (get_db (delete_item item_id) d plan).2 in
  Forall (λ oi, is_Some (items d' !! OrderItem.item_id oi)) (order_items d')
  ∧ order_items d' = order_items d ∧ orders d' = orders d
  ∧ technical_reports d' = technical_reports d.
Proof.
  intros Hfk. pose proof (delete_item_run item_id d plan) as Hrun. simpl in *.
  destruct (items d !! item_id) as [row|] eqn:Hrow.
  - destruct (plan 0%nat) as [[msg|msg]|].
    + destruct Hrun as (_ & ->). done.
    + destruct Hrun as (_ & ->). done.
    + case_bool_decide as Href.
      * destruct Hrun as (_ & ->). done.
      * destruct Hrun as (_ & ->). simpl. split; [|done].
        apply Forall_forall. intros oi Hoi.
        rewrite lookup_delete_ne.
        -- by apply (proj1 (Forall_forall _ _) Hfk).
        -- intros ->. apply Href. by apply list_elem_of_fmap_2.
  - destruct Hrun as (_ & -> & _). done.
Qed.

Lemma X16_delete_item_keeps_references_witness :
  let d' := committed (get_db (delete_item 1) shop_R1 no_faults).2 in
  Forall (λ oi, is_Some (items d' !! OrderItem.item_id oi)) (order_items d')
  ∧ order_items d' = order_items shop_R1 ∧ orders d' = orders shop_R1
  ∧ technical_reports d' = technical_reports shop_R1.
Proof.
  apply (X16_delete_item_keeps_references 1 shop_R1 no_faults).
  repeat constructor. by eexists.
Defined.



(** ** Outcomes and invariants of a run *)

Lemma post_ret {A} (a : A) s (Q : A → State → Prop) R : Q a s → post (ret a) s Q R.
Proof. done. Qed.

Lemma post_raise {A} e s (Q : A → State → Prop) (R : Exception → State → Prop) :
  R e s → post (raise e) s Q R.
Proof. done. Qed.

Lemma post_bind {A B} (m : M A) (f : A → M B) s Q R :
  post m s (λ a s', post (f a) s' Q R) R → post (bind m f) s Q R.
Proof. unfold post, bind. by destruct (m s) as [[a|e] s']. Qed.

Lemma post_try_except {A} (m : M A) h s Q R :
  post m s Q (λ e s', post (h e) s' Q R) → post (try_except m h) s Q R.
Proof. unfold post, try_except. by destruct (m s) as [[a|e] s']. Qed.

Lemma post_mono {A} (m : M A) s (Q Q' : A → State → Prop)
    (R R' : Exception → State → Prop) :
  post m s Q' R' → (∀ a s', Q' a s' → Q a s') → (∀ e s', R' e s' → R e s') →
  post m s Q R.
Proof. unfold post. destruct (m s) as [[a|e] s']; eauto. Qed.

Lemma post_modify f s (Q : unit → State → Prop) R : Q tt (f s) → post (modify f) s Q R.
Proof. done. Qed.

Lemma post_get_state s (Q : State → State → Prop) R : Q s s → post get_state s Q R.
Proof. done. Qed.

Lemma post_run {A} (m : M A) s a s' (Q : A → State → Prop) R :
  m s = (Ok a, s') → Q a s' → post m s Q R.
Proof. unfold post. by intros ->. Qed.

Lemma raises_ret {A} E (a : A) : raises E (ret a).
Proof. by intros s. Qed.

Lemma raises_raise {A} (E : Exception → Prop) e : E e → raises E (@raise A e).
Proof. by intros He s. Qed.

Lemma raises_modify E f : raises E (modify f).
Proof. by intros s. Qed.

Lemma raises_get_state E : raises E get_state.
Proof. by intros s. Qed.

Lemma raises_bind {A B} E (m : M A) (f : A → M B) :
  raises E m → (∀ a, raises E (f a)) → raises E (bind m f).
Proof.
  intros Hm Hf s. apply post_bind. eapply post_mono; [apply Hm| |done].
  intros a s' _. apply Hf.
Qed.

Lemma raises_try_except {A} E' E (m : M A) h :
  raises E' m → (∀ e, E' e → raises E (h e)) → raises E (try_except m h).
Proof.
  intros Hm Hh s. apply post_try_except. eapply post_mono; [apply Hm|done|].
  intros e s' He. by apply Hh.
Qed.

Ltac raises_step :=
  first [ apply raises_ret | apply raises_modify | apply raises_get_state
        | apply raises_bind; [|intros ?] ].

Lemma raises_write : raises is_db_error db.write.
Proof. intros s. unfold post, db.write. destruct (faults s (writes s)); [by eexists|done]. Qed.

Lemma raises_commit : raises is_db_error db.commit.
Proof. unfold db.commit. repeat raises_step. apply raises_write. Qed.

Lemma raises_rollback E : raises E db.rollback.
Proof. apply raises_modify. Qed.

Lemma raises_query_item E id : raises E (db.query_item id).
Proof.
  intros s. unfold post, db.query_item.
  destruct (items (txn s) !! id); [|done]. by destruct (identity_map s !! id).
Qed.

Lemma raises_item_attrs ref : raises is_db_error (db.item_attrs ref).
Proof.
  intros s. unfold post, db.item_attrs.
  destruct (identity_map s !! ref); [done|].
  destruct (items (txn s) !! ref); [done|by eexists].
Qed.

Lemma raises_refresh_item ref : raises is_db_error (db.refresh_item ref).
Proof.
  intros s. unfold post, db.refresh_item.
  destruct (items (txn s) !! ref); [done|by eexists].
Qed.

Lemma raises_item_manager_update id kwargs :
  raises is_db_error (item_manager.update id kwargs).
Proof.
  unfold item_manager.update. apply (raises_try_except is_db_error).
  - apply raises_bind; [apply raises_query_item|]. intros [ref|]; [|apply raises_ret].
    apply raises_bind; [apply raises_modify|]. intros _.
    apply raises_bind; [apply raises_commit|]. intros _.
    apply raises_bind; [apply raises_refresh_item|]. intros _. apply raises_ret.
  - intros e He. apply raises_bind; [apply raises_rollback|]. intros _.
    by apply raises_raise.
Qed.

(** ** What [create_order] never does, whatever fails *)

Lemma keeps_ret {A} I (a : A) : keeps I (ret a).
Proof. by intros s. Qed.

Lemma keeps_raise {A} I e : keeps I (@raise A e).
Proof. by intros s. Qed.

Lemma keeps_modify (I : State → Prop) f : (∀ s, I s → I (f s)) → keeps I (modify f).
Proof. intros Hf s Hs. by apply Hf. Qed.

Lemma keeps_get_state I : keeps I get_state.
Proof. by intros s. Qed.

Lemma keeps_bind {A B} I (m : M A) (f : A → M B) :
  keeps I m → (∀ a, keeps I (f a)) → keeps I (bind m f).
Proof.
  intros Hm Hf s Hs. apply post_bind. eapply post_mono; [by apply Hm| |done].
  intros a s' Hs'. by apply Hf.
Qed.

Lemma keeps_try_except {A} I (m : M A) h :
  keeps I m → (∀ e, keeps I (h e)) → keeps I (try_except m h).
Proof.
  intros Hm Hh s Hs. apply post_try_except. eapply post_mono; [by apply Hm|done|].
  intros e s' Hs'. by apply Hh.
Qed.

Section creating.
Variables (ids : list Z) (d : Tables).

Lemma lowered_refl id row : lowered ids id row row.
Proof. unfold lowered. split; [done|]. split; [lia|done]. Qed.

Lemma grown_refl : grown ids d d.
Proof.
  repeat split; try done. intros id. destruct (items d !! id); constructor.
  apply lowered_refl.
Qed.

Lemma creating_SessionLocal plan : creating ids d (SessionLocal d plan).
Proof.
  split; [apply grown_refl|]. split; [apply grown_refl|].
  intros id it. simpl. by rewrite lookup_empty.
Qed.

Lemma grown_lookup d' id row' :
  grown ids d d' → items d' !! id = Some row' →
  ∃ row, items d !! id = Some row ∧ lowered ids id row row'.
Proof.
  intros (_ & _ & _ & Hi) Hrow. specialize (Hi id). rewrite Hrow in Hi.
  inversion Hi as [row ? Hl|]. by exists row.
Qed.

Lemma creating_set_log f s : creating ids d s → creating ids d (set_log f s).
Proof. done. Qed.

Lemma creating_set_s3_uploads f s : creating ids d s → creating ids d (set_s3_uploads f s).
Proof. done. Qed.

Lemma creating_set_writes f s : creating ids d s → creating ids d (set_writes f s).
Proof. done. Qed.

Lemma creating_commit s :
  creating ids d s →
  creating ids d (set_identity_map (λ _, ∅) (set_committed (λ _, txn s) s)).
Proof.
  intros (Ht & Hc & Hi). repeat split; try apply Ht.
  intros id it. simpl. by rewrite lookup_empty.
Qed.

Lemma creating_rollback s :
  creating ids d s →
  creating ids d (set_identity_map (λ _, ∅) (set_txn (λ _, committed s) s)).
Proof.
  intros (Ht & Hc & Hi). repeat split; try apply Hc.
  intros id it. simpl. by rewrite lookup_empty.
Qed.

Lemma creating_load s id row :
  creating ids d s → items (txn s) !! id = Some row →
  creating ids d (set_identity_map <[id := row]> s).
Proof.
  intros (Ht & Hc & Hi) Hrow. split; [exact Ht|]. split; [exact Hc|].
  intros j it. simpl. destruct (decide (j = id)) as [->|Hj].
  - rewrite lookup_insert_eq. intros [= <-]. by apply (grown_lookup (txn s)).
  - rewrite lookup_insert_ne by done. apply Hi.
Qed.

Lemma creating_reloaded im s :
  creating ids d s →
  (∀ id it, im !! id = Some it → ∃ row, items d !! id = Some row ∧ lowered ids id row it) →
  creating ids d (reloaded im s).
Proof. intros (Ht & Hc & Hi) Him. by repeat split; try apply Ht; try apply Hc. Qed.

Lemma keeps_logger_info msg : keeps (creating ids d) (logger.info msg).
Proof. apply keeps_modify. intros s. apply creating_set_log. Qed.

Lemma keeps_logger_warning msg : keeps (creating ids d) (logger.warning msg).
Proof. apply keeps_modify. intros s. apply creating_set_log. Qed.

Lemma keeps_logger_error msg : keeps (creating ids d) (logger.error msg).
Proof. apply keeps_modify. intros s. apply creating_set_log. Qed.

Lemma keeps_write : keeps (creating ids d) db.write.
Proof.
  intros s Hs. unfold post, db.write.
  destruct (faults s (writes s)); by apply creating_set_writes.
Qed.

Lemma keeps_commit : keeps (creating ids d) db.commit.
Proof.
  unfold db.commit. apply keeps_bind; [apply keeps_write|]. intros _.
  apply keeps_modify. apply creating_commit.
Qed.

Lemma keeps_rollback : keeps (creating ids d) db.rollback.
Proof. apply keeps_modify. apply creating_rollback. Qed.

Lemma query_item_creating id s :
  creating ids d s →
  post (db.query_item id) s
    (λ r s', creating ids d s' ∧ ∀ ref, r = Some ref → ref = id) (λ _ _, False).
Proof.
  intros Hs. unfold post, db.query_item.
  destruct (items (txn s) !! id) as [row|] eqn:Hrow; [|done].
  destruct (identity_map s !! id) as [it|].
  - split; [done|]. by intros ref [= <-].
  - split; [by apply creating_load|]. by intros ref [= <-].
Qed.

Lemma item_manager_get_creating id s :
  creating ids d s →
  post (item_manager.get id) s
    (λ r s', creating ids d s' ∧ ∀ ref, r = Some ref → ref = id) (λ _ _, False).
Proof.
  intros Hs. unfold item_manager.get. apply post_try_except.
  eapply post_mono; [by apply query_item_creating|done|done].
Qed.

Lemma item_attrs_creating ref s :
  creating ids d s →
  post (db.item_attrs ref) s
    (λ it s', creating ids d s'
              ∧ ∃ row, items d !! ref = Some row ∧ lowered ids ref row it)
    (λ _ s', creating ids d s').
Proof.
  intros Hs. unfold post, db.item_attrs.
  destruct (identity_map s !! ref) as [it|] eqn:Hit.
  - split; [done|]. destruct Hs as (_ & _ & Hi). by apply Hi.
  - destruct (items (txn s) !! ref) as [row|] eqn:Hrow; [|done].
    split; [by apply creating_load|]. destruct Hs as (Ht & _). by apply (grown_lookup (txn s)).
Qed.

Lemma creating_set_stock ref v s :
  ref ∈ ids → (∀ row, items d !! ref = Some row → v ≤ Item.stock row) →
  creating ids d s →
  creating ids d
    (set_identity_map (alter (λ it, foldl Item.setattr it [Item.stock_ v]) ref)
       (set_txn (set_items (alter (λ it, foldl Item.setattr it [Item.stock_ v]) ref)) s)).
Proof.
  intros Href Hv ((Hr & Ho & Hoi & Hitems) & Hc & Hi).
  assert (∀ row it, items d !! ref = Some row → lowered ids ref row it →
                    lowered ids ref row (foldl Item.setattr it [Item.stock_ v])) as Hlow.
  { intros row it Hrow (Hp & _ & _). repeat split; simpl; [done|by apply Hv|done]. }
  split; [|split; [exact Hc|]].
  - repeat split; try done. intros id. simpl.
    destruct (decide (id = ref)) as [->|Hid].
    + rewrite lookup_alter_eq. specialize (Hitems ref).
      inversion Hitems as [row it Hl Hrow Hit|]; simpl; constructor.
      by apply Hlow.
    + rewrite lookup_alter_ne by done. apply Hitems.
  - intros id it. simpl. destruct (decide (id = ref)) as [->|Hid].
    + rewrite lookup_alter_eq. destruct (identity_map s !! ref) as [it0|] eqn:Hit0; [|done].
      simpl. intros [= <-]. destruct (Hi _ _ Hit0) as (row & Hrow & Hl).
      exists row. split; [done|]. by apply Hlow.
    + rewrite lookup_alter_ne by done. apply Hi.
Qed.

Lemma keeps_refresh_item ref : keeps (creating ids d) (db.refresh_item ref).
Proof.
  intros s Hs. unfold post, db.refresh_item.
  destruct (items (txn s) !! ref) as [row|] eqn:Hrow; [|done].
  by apply creating_load.
Qed.

Lemma keeps_item_manager_update ref v :
  ref ∈ ids → (∀ row, items d !! ref = Some row → v ≤ Item.stock row) →
  keeps (creating ids d) (item_manager.update ref [Item.stock_ v]).
Proof.
  intros Href Hv. unfold item_manager.update. apply keeps_try_except.
  - intros s Hs. apply post_bind.
    eapply post_mono; [by apply query_item_creating| |done].
    intros [ref'|] s1 [Hs1 Heq]; [|done]. rewrite (Heq ref') by done.
    revert s1 Hs1. apply keeps_bind.
    { apply keeps_modify. intros s1. by apply creating_set_stock. }
    intros _. apply keeps_bind; [apply keeps_commit|]. intros _.
    apply keeps_bind; [apply keeps_refresh_item|]. intros _. apply keeps_ret.
  - intros e. apply keeps_bind; [apply keeps_rollback|]. intros _. apply keeps_raise.
Qed.

Lemma grown_app_reports d' l :
  grown ids d d' → grown ids d (set_technical_reports (λ k, k ++ l) d').
Proof. intros (Hr & Ho & Hoi & Hi). repeat split; try done. by apply prefix_app_r. Qed.

Lemma grown_app_orders d' l :
  grown ids d d' → grown ids d (set_orders (λ k, k ++ l) d').
Proof. intros (Hr & Ho & Hoi & Hi). repeat split; try done. by apply prefix_app_r. Qed.

Lemma grown_app_order_items d' l :
  grown ids d d' → grown ids d (set_order_items (λ k, k ++ l) d').
Proof. intros (Hr & Ho & Hoi & Hi). repeat split; try done. by apply prefix_app_r. Qed.

Lemma keeps_add_flush_report r user_id :
  keeps (creating ids d) (db.add_flush_report r user_id).
Proof.
  unfold db.add_flush_report, db.flush. apply keeps_bind; [apply keeps_write|]. intros _.
  apply keeps_bind; [apply keeps_get_state|]. intros s0.
  apply keeps_bind; [|intros _; apply keeps_ret].
  apply keeps_modify. intros s (Ht & Hc & Hi). split; [|done].
  by apply grown_app_reports.
Qed.

Lemma keeps_add_flush_order request_id technical_report_id status image_url :
  keeps (creating ids d)
    (db.add_flush_order request_id technical_report_id status image_url).
Proof.
  unfold db.add_flush_order, db.flush. apply keeps_bind; [apply keeps_write|]. intros _.
  apply keeps_bind; [apply keeps_get_state|]. intros s0.
  case_bool_decide; [apply keeps_raise|].
  apply keeps_bind; [|intros _; apply keeps_ret].
  apply keeps_modify. intros s (Ht & Hc & Hi). split; [|done].
  by apply grown_app_orders.
Qed.

Lemma keeps_add_order_item order_id item_id quantity unit_price :
  keeps (creating ids d) (db.add_order_item order_id item_id quantity unit_price).
Proof.
  unfold db.add_order_item. apply keeps_bind; [apply keeps_get_state|]. intros s0.
  apply keeps_modify. intros s (Ht & Hc & Hi). split; [|done].
  by apply grown_app_order_items.
Qed.

Lemma keeps_create_order_items order_id data :
  Forall (λ x, 0 < quantity x ∧ item x ∈ ids) data →
  keeps (creating ids d) (create_order_items order_id data).
Proof.
  induction data as [|x data IH]; intros Hdata; simpl; [apply keeps_ret|].
  apply Forall_cons in Hdata as [[Hq Hx] Hdata].
  apply keeps_bind; [apply keeps_add_order_item|]. intros _ s Hs.
  apply post_bind. eapply post_mono; [by apply item_attrs_creating| |done].
  intros it s1 (Hs1 & row & Hrow & (_ & Hstock & _)). revert s1 Hs1.
  apply keeps_bind; [|intros _; by apply IH].
  apply keeps_item_manager_update; [done|].
  intros row' Hrow'. replace row' with row by congruence. lia.
Qed.

Lemma keeps_reload id : keeps (creating ids d) (reload id).
Proof.
  intros s Hs. unfold reload, post, bind, db.query_order_joined, get_state, ret.
  destruct (find _ _) as [o|]; simpl; [|done].
  generalize (OrderItem.item_id <$> db.lines_of id (txn s)). intros l.
  unfold db.load_items. revert s Hs. induction l as [|j l IH]; intros s Hs; simpl; [done|].
  destruct (items (txn s) !! j) as [row|] eqn:Hrow; [|by apply IH].
  destruct (identity_map s !! j); [by apply IH|].
  apply IH. by apply creating_load.
Qed.

Lemma keeps_refresh_order id : keeps (creating ids d) (refresh_order id).
Proof.
  intros s Hs. unfold refresh_order, post, bind, db.query_order.
  by destruct (find _ _).
Qed.

Lemma keeps_get_by_field_request_id v :
  keeps (creating ids d) (order_manager.get_by_field_request_id v).
Proof. intros s Hs. by eapply post_run; [apply get_by_field_request_id_run|]. Qed.

Lemma keeps_create_order_try order user_id data image_url :
  Forall (λ x, 0 < quantity x ∧ item x ∈ ids) data →
  keeps (creating ids d) (create_order_try order user_id data image_url).
Proof.
  intros Hdata. unfold create_order_try.
  apply keeps_bind; [apply keeps_add_flush_report|]. intros r.
  apply keeps_bind; [apply keeps_logger_info|]. intros _.
  apply keeps_bind; [apply keeps_add_flush_order|]. intros o.
  apply keeps_bind; [by apply keeps_create_order_items|]. intros _.
  apply keeps_bind; [apply keeps_commit|]. intros _.
  apply keeps_bind; [apply keeps_refresh_order|]. intros _.
  apply keeps_bind; [apply keeps_logger_info|]. intros _. apply keeps_ret.
Qed.

Lemma keeps_create_order_except order e :
  keeps (creating ids d) (create_order_except order e).
Proof.
  unfold create_order_except. destruct e as [code detail|[msg|msg]|msg];
    [apply keeps_raise| | |apply keeps_raise].
  - apply keeps_bind; [apply keeps_rollback|]. intros _.
    apply keeps_bind; [apply keeps_get_by_field_request_id|]. intros [o|].
    + apply keeps_bind; [apply keeps_logger_info|]. intros _.
      apply keeps_bind; [apply keeps_reload|]. intros r. apply keeps_ret.
    + apply keeps_bind; [apply keeps_logger_error|]. intros _. apply keeps_raise.
  - apply keeps_bind; [apply keeps_rollback|]. intros _.
    apply keeps_bind; [apply keeps_logger_error|]. intros _. apply keeps_raise.
Qed.

Lemma validate_items_creating lines s :
  Forall (λ l, OrderItemCreate.item_id l ∈ ids) lines →
  creating ids d s →
  post (validate_items lines) s
    (λ data s', creating ids d s' ∧ Forall (λ x, 0 < quantity x ∧ item x ∈ ids) data)
    (λ _ s', creating ids d s').
Proof.
  revert s. induction lines as [|l lines IH]; intros s Hlines Hs; simpl.
  { by apply post_ret. }
  apply Forall_cons in Hlines as [Hl Hlines].
  case_bool_decide as Hq.
  { apply post_bind, post_modify, post_raise. by apply creating_set_log. }
  apply post_bind. eapply post_mono; [by apply item_manager_get_creating| |done].
  intros [ref|] s1 [Hs1 Href].
  - rewrite (Href ref) by done.
    apply post_bind. eapply post_mono; [by apply item_attrs_creating| |done].
    intros it s2 [Hs2 _]. case_bool_decide.
    + apply post_bind, post_modify, post_raise. by apply creating_set_log.
    + apply post_bind. eapply post_mono; [by apply IH| |done].
      intros data s3 [Hs3 Hdata]. apply post_ret. split; [done|].
      constructor; [|done]. simpl. split; [lia|done].
  - apply post_bind, post_modify, post_raise. by apply creating_set_log.
Qed.
End creating.

(** X19: what [create_order] never does.  With no other caller active,
    whatever the request and whichever writes the storage engine refuses,
    the database after the request holds every report, order and line it
    held before, unchanged and in the same place; it has the same items;
    no price has changed and no stock has gone up; and an item that no
    line of the request names has its row unchanged. *)
Theorem X19_create_order_only_adds upload order user_id d plan :
  let d' := committed (get_db (create_order (alone upload) order user_id) d plan).2 in
  let ids := OrderItemCreate.item_id <$> OrderCreate.items order in
  technical_reports d `prefix_of` technical_reports d'
  ∧ orders d `prefix_of` orders d'
  ∧ order_items d `prefix_of` order_items d'
  ∧ ∀ id, option_Forall2 (lowered ids id) (items d !! id) (items d' !! id).
Proof.
  intros d' ids.
  assert (keeps (creating ids d) (create_order (alone upload) order user_id)) as Hkeeps.
  { unfold create_order.
    apply keeps_bind; [apply keeps_get_by_field_request_id|]. intros [o|].
    - apply keeps_bind; [apply keeps_logger_info|]. intros _.
      apply keeps_bind; [apply keeps_reload|]. intros r. apply keeps_ret.
    - destruct (OrderCreate.items order) as [|l ls] eqn:Hitems.
      { apply keeps_bind; [apply keeps_logger_warning|]. intros _. apply keeps_raise. }
      intros s Hs. apply post_bind.
      eapply post_mono; [apply (validate_items_creating ids d (l :: ls) s)| |done].
      + subst ids. apply Forall_forall. intros x Hx.
        by apply list_elem_of_fmap_2.
      + done.
      + intros data s1 [Hs1 Hdata]. revert s1 Hs1.
        apply keeps_bind.
        { intros s1 Hs1. eapply post_run; [apply upload_optional_image_run|].
          by apply creating_set_log, creating_set_s3_uploads. }
        intros url. apply keeps_bind.
        { apply keeps_modify. intros s1 (Ht & Hc & Hi). by repeat split; try apply Hc. }
        intros _. apply keeps_bind.
        { apply keeps_try_except.
          - apply keeps_bind; [by apply keeps_create_order_try|]. intros o.
            apply keeps_ret.
          - apply keeps_create_order_except. }
        intros [r|o]; [apply keeps_ret|].
        apply keeps_bind; [apply keeps_reload|]. intros r. apply keeps_ret. }
  specialize (Hkeeps (SessionLocal d plan) (creating_SessionLocal ids d plan)).
  subst d'. unfold get_db, post in *.
  destruct (create_order (alone upload) order user_id (SessionLocal d plan))
    as [[r|e] s']; simpl; apply Hkeeps.
Qed.

(** ** Every outcome of [update_order_status] *)

Lemma post_conj {A} (m : M A) s (Q1 Q2 : A → State → Prop)
    (R1 R2 : Exception → State → Prop) :
  post m s Q1 R1 → post m s Q2 R2 →
  post m s (λ a s', Q1 a s' ∧ Q2 a s') (λ e s', R1 e s' ∧ R2 e s').
Proof. unfold post. by destruct (m s) as [[a|e] s']. Qed.

Section restoring.
Variables (ids : list Z) (d : Tables).

Lemma touched_refl : touched ids d d.
Proof.
  split; [done|]. split; [done|]. intros id.
  destruct (items d !! id); by constructor.
Qed.

Lemma restoring_SessionLocal plan : restoring ids d (SessionLocal d plan).
Proof. split; (split; [apply touched_refl|done]). Qed.

Lemma restoring_set_log f s : restoring ids d s → restoring ids d (set_log f s).
Proof. done. Qed.

Lemma restoring_set_writes f s : restoring ids d s → restoring ids d (set_writes f s).
Proof. done. Qed.

Lemma restoring_set_identity_map f s :
  restoring ids d s → restoring ids d (set_identity_map f s).
Proof. done. Qed.

Lemma restoring_commit s :
  restoring ids d s →
  restoring ids d (set_identity_map (λ _, ∅) (set_committed (λ _, txn s) s)).
Proof. by intros [Ht Hc]. Qed.

Lemma restoring_rollback s :
  restoring ids d s →
  restoring ids d (set_identity_map (λ _, ∅) (set_txn (λ _, committed s) s)).
Proof. by intros [Ht Hc]. Qed.

Lemma restoring_lookup s id :
  restoring ids d s → items (txn s) !! id = None → items d !! id = None.
Proof.
  intros [[(_ & _ & Hi) _] _] Hrow. specialize (Hi id). rewrite Hrow in Hi.
  by inversion Hi.
Qed.

Lemma keeps_restoring_write : keeps (restoring ids d) db.write.
Proof.
  intros s Hs. unfold post, db.write.
  destruct (faults s (writes s)); by apply restoring_set_writes.
Qed.

Lemma keeps_restoring_commit : keeps (restoring ids d) db.commit.
Proof.
  unfold db.commit. apply keeps_bind; [apply keeps_restoring_write|]. intros _.
  apply keeps_modify. apply restoring_commit.
Qed.

Lemma keeps_restoring_rollback : keeps (restoring ids d) db.rollback.
Proof. apply keeps_modify. apply restoring_rollback. Qed.

Lemma keeps_restoring_query_item id : keeps (restoring ids d) (db.query_item id).
Proof.
  intros s Hs. unfold post, db.query_item.
  destruct (items (txn s) !! id); [|done]. by destruct (identity_map s !! id).
Qed.

Lemma keeps_restoring_item_attrs ref : keeps (restoring ids d) (db.item_attrs ref).
Proof.
  intros s Hs. unfold post, db.item_attrs.
  destruct (identity_map s !! ref); [done|]. by destruct (items (txn s) !! ref).
Qed.

Lemma keeps_restoring_refresh_item ref : keeps (restoring ids d) (db.refresh_item ref).
Proof.
  intros s Hs. unfold post, db.refresh_item. by destruct (items (txn s) !! ref).
Qed.

Lemma restoring_set_stock ref v s :
  ref ∈ ids → restoring ids d s →
  restoring ids d
    (set_identity_map (alter (λ it, foldl Item.setattr it [Item.stock_ v]) ref)
       (set_txn (set_items (alter (λ it, foldl Item.setattr it [Item.stock_ v]) ref)) s)).
Proof.
  intros Href [[(Hr & Hoi & Hitems) Ho] Hc]. split; [|exact Hc].
  split; [|done]. split; [done|]. split; [done|]. intros id. simpl.
  destruct (decide (id = ref)) as [->|Hid].
  - rewrite lookup_alter_eq. specialize (Hitems ref).
    inversion Hitems as [row it [Hp _] Hrow Hit|]; simpl; constructor.
    by split.
  - rewrite lookup_alter_ne by done. apply Hitems.
Qed.

Lemma query_item_restoring id s :
  restoring ids d s →
  post (db.query_item id) s
    (λ r s', restoring ids d s'
             ∧ match r with
               | Some ref => ref = id
               | None => items d !! id = None
               end)
    (λ _ _, False).
Proof.
  intros Hs. unfold post, db.query_item.
  destruct (items (txn s) !! id) as [row|] eqn:Hrow.
  - by destruct (identity_map s !! id).
  - split; [done|]. by apply (restoring_lookup s).
Qed.

Lemma keeps_restoring_item_manager_update ref v :
  ref ∈ ids → keeps (restoring ids d) (item_manager.update ref [Item.stock_ v]).
Proof.
  intros Href. unfold item_manager.update. apply keeps_try_except.
  - intros s Hs. apply post_bind.
    eapply post_mono; [by apply query_item_restoring| |done].
    intros [ref'|] s1 [Hs1 Heq]; [|done]. subst ref'.
    apply post_bind. unfold db.item_setattrs. apply post_modify.
    apply (restoring_set_stock ref v s1 Href) in Hs1. revert Hs1.
    match goal with |- restoring _ _ ?s2 → _ => generalize s2 end.
    apply keeps_bind; [apply keeps_restoring_commit|]. intros _.
    apply keeps_bind; [apply keeps_restoring_refresh_item|]. intros _. apply keeps_ret.
  - intros e. apply keeps_bind; [apply keeps_restoring_rollback|]. intros _.
    apply keeps_raise.
Qed.
End restoring.
Lemma restore_stock_post ids d lines s :
  Forall (λ oi, OrderItem.item_id oi ∈ ids) lines →
  restoring ids d s →
  post (restore_stock lines) s
    (λ _ s', restoring ids d s')
    (λ e s', restoring ids d s'
             ∧ (is_db_error e
                ∨ ∃ msg oi, e = AttributeError msg ∧ oi ∈ lines
                            ∧ items d !! OrderItem.item_id oi = None)).
Proof.
  revert s. induction lines as [|oi lines IH]; intros s Hlines Hs; simpl.
  { by apply post_ret. }
  apply Forall_cons in Hlines as [Hoi Hlines].
  apply post_bind. eapply post_mono; [by apply query_item_restoring| |done].
  intros [ref|] s1 [Hs1 Href].
  - subst ref. apply post_bind.
    eapply post_mono;
      [apply post_conj; [by apply keeps_restoring_item_attrs|apply raises_item_attrs]| |].
    2: { intros e s2 [Hs2 He]. split; [done|by left]. }
    intros it s2 [Hs2 _]. apply post_bind.
    eapply post_mono;
      [apply post_conj;
        [by apply keeps_restoring_item_manager_update
        |apply raises_item_manager_update]| |].
    2: { intros e s3 [Hs3 He]. split; [done|by left]. }
    intros _ s3 [Hs3 _]. eapply post_mono; [by apply IH|done|].
    intros e s4 [Hs4 [He|(msg & oi' & -> & Hin & Hnone)]]; (split; [done|]).
    + by left.
    + right. exists msg, oi'. split; [done|]. split; [by right|done].
  - apply post_raise. split; [done|]. right. eexists _, oi.
    split; [done|]. split; [by left|done].
Qed.

(** [DBManager(Order).update] from a state in which the order is there:
    the status is written and committed, or nothing is. *)
Lemma order_manager_update_post ids d id v s o :
  restoring ids d s →
  find (λ x, bool_decide (Order.id x = id)) (orders (txn s)) = Some o →
  post (order_manager.update id v) s
    (λ _ s', touched ids d (committed s')
             ∧ orders (committed s') = with_status id v (orders d)
             ∧ txn s' = committed s')
    (λ e s', restoring ids d s' ∧ is_db_error e).
Proof.
  intros [[Ht Ho] [Hc Hoc]] Hfind. unfold post.
  destruct (faults s (writes s)) as [e|] eqn:Hf.
  - rewrite (order_manager_update_fault id v s o e Hf Hfind).
    split; [|by eexists]. by split.
  - rewrite (order_manager_update_ok id v s o Hf Hfind). simpl.
    split; [exact Ht|]. split; [by rewrite Ho|done].
Qed.

Lemma find_pred {A} (p : A → bool) (l : list A) (x : A) : find p l = Some x → p x = true.
Proof.
  induction l as [|y l IH]; simpl; [done|].
  destruct (p y) eqn:Hy; [by intros [= <-]|exact IH].
Qed.

(** The run of [update_order_status], whatever the storage engine
    answers. *)
Lemma update_order_status_post order_id new d plan :
  let ids := OrderItem.item_id <$> db.lines_of order_id d in
  post (update_order_status order_id new) (SessionLocal d plan)
    (λ r s', touched ids d (committed s')
             ∧ orders (committed s') = with_status order_id new (orders d)
             ∧ ∃ o, find (λ x, bool_decide (Order.id x = order_id)) (orders d) = Some o
                    ∧ allowed (Order.status o) new
                    ∧ r = Some (Order.set_status new o, db.lines_of order_id d))
    (λ e s', touched ids d (committed s')
             ∧ orders (committed s') = orders d
             ∧ update_order_status_error order_id new d e).
Proof.
  intros ids. unfold update_order_status. apply post_try_except.
  pose proof (restoring_SessionLocal ids d plan) as Hs0.
  apply post_bind.
  destruct (reload_run order_id (SessionLocal d plan)) as (im & Hre & _).
  eapply post_run; [exact Hre|]. change (txn (SessionLocal d plan)) with d.
  apply (restoring_set_identity_map ids d (λ _, im)) in Hs0.
  fold (reloaded im (SessionLocal d plan)) in Hs0.
  revert Hs0. generalize (reloaded im (SessionLocal d plan)). intros s Hs.
  destruct (find _ (orders d)) as [o|] eqn:Hfind; simpl.
  2: { apply post_bind, post_modify, post_raise. simpl.
       destruct Hs as [_ [Hc Hoc]]. split; [done|]. split; [done|]. left.
       split; [|done]. by apply (find_key_None Order.id). }
  rewrite valid_transitions_allowed.
  destruct (decide (allowed (Order.status o) new)) as [Ha|Ha].
  2: { rewrite bool_decide_eq_true_2 by done.
       apply post_bind, post_modify, post_raise. simpl.
       destruct Hs as [_ [Hc Hoc]]. split; [done|]. split; [done|]. right. left.
       by exists o. }
  rewrite bool_decide_eq_false_2 by (by intros ?).
  rewrite cancelling_iff.
  apply post_bind.
  apply (post_mono _ _ _ (λ _ s', restoring ids d s') _
           (λ e s', restoring ids d s'
                    ∧ (is_db_error e
                       ∨ ∃ msg oi, e = AttributeError msg ∧ new = CANCELLED
                                   ∧ oi ∈ db.lines_of order_id d
                                   ∧ items d !! OrderItem.item_id oi = None))).
  { case_bool_decide as Hcancel.
    - apply post_bind.
      eapply post_mono; [apply (restore_stock_post ids d _ s)| |]; [|done| |].
      + apply Forall_forall. intros oi Hoi. by apply list_elem_of_fmap_2.
      + intros [] s1 Hs1. by apply post_modify.
      + intros e s1 [Hs1 [He|(msg & oi & -> & Hin & Hnone)]]; (split; [done|]).
        * by left.
        * right. exists msg, oi. by destruct Hcancel as [Hnew _].
    - by apply post_ret. }
  - intros _ s1 Hs1. apply post_bind.
    eapply post_mono; [apply (order_manager_update_post ids d order_id new s1 o Hs1)| |].
    + destruct Hs1 as [[_ ->] _]. exact Hfind.
    + intros _ s2 (Ht & Ho & Htxn). apply post_bind, post_modify.
      destruct (reload_run order_id (set_log (λ l, l ++ [(INFO,
                  "Order " +:+ pretty order_id +:+ " status updated: "
                  +:+ value (Order.status o) +:+ " -> " +:+ value new)]) s2))
        as (im' & Hre' & _).
      eapply post_run; [exact Hre'|]. simpl. rewrite Htxn, Ho, find_with_status, Hfind.
      split; [done|]. split; [done|]. exists o. split; [done|]. split; [done|].
      simpl. unfold db.lines_of. by destruct Ht as (_ & -> & _).
    + intros e s2 [Hs2 [e' ->]]. simpl.
      apply post_bind, post_modify. apply post_bind, post_modify. apply post_raise.
      simpl. destruct Hs2 as [_ [Hc Hoc]]. split; [done|]. split; [done|].
      right. right. by left.
  - intros e s1 [Hs1 [[e' ->]|(msg & oi & -> & Hnew & Hin & Hnone)]]; simpl.
    + apply post_bind, post_modify. apply post_bind, post_modify. apply post_raise.
      simpl. destruct Hs1 as [_ [Hc Hoc]]. split; [done|]. split; [done|].
      right. right. by left.
    + apply post_raise. destruct Hs1 as [_ [Hc Hoc]]. split; [done|]. split; [done|].
      right. right. right. by exists msg, oi.
Qed.

(** X20: what [update_order_status] never touches.  Whatever the order,
    the new status and the answers of the storage engine, the database
    after the request has the reports and the lines it had; its orders
    are the ones it had, with at most the status of the orders with this
    id set to the new one; it has the same items, no price has changed,
    and an item that no line of the order names has its row unchanged.
    When the new status is not "cancelled", no item row changes at all. *)
Theorem X20_update_order_status_frame order_id new d plan :
  let d' := committed (get_db (update_order_status order_id new) d plan).2 in
  let ids := OrderItem.item_id <$> db.lines_of order_id d in
  technical_reports d' = technical_reports d
  ∧ order_items d' = order_items d
  ∧ (orders d' = orders d ∨ orders d' = with_status order_id new (orders d))
  ∧ (∀ id, option_Forall2 (restocked ids id) (items d !! id) (items d' !! id))
  ∧ (new ≠ CANCELLED → items d' = items d).
Proof.
  intros d' ids. pose proof (update_order_status_post order_id new d plan) as Hpost.
  assert (new ≠ CANCELLED → items d' = items d) as Hitems.
  { intros Hnew.
    destruct (update_order_status_keeps_items order_id new d plan Hnew)
      as (r & s' & Hrun & Hi).
    subst d'. by rewrite Hrun. }
  subst d'. unfold get_db, post in *. simpl in Hpost.
  destruct (update_order_status order_id new (SessionLocal d plan)) as [[r|e] s']; simpl in *.
  - destruct Hpost as ((Hr & Hoi & Hi) & Ho & _). auto.
  - destruct Hpost as ((Hr & Hoi & Hi) & Ho & _). auto.
Qed.

(** X21: the outcomes of [update_order_status], for an order id in the
    range of the column and, on a cancellation, restored stocks that fit
    it; whatever the storage engine answers to the writes.  When the
    handler returns, an order with the id was there, the transition is
    one of the table, the status of that order is the new one in the
    database, and the order returned carries it, with its lines.  When
    the handler raises, the exception is one of: HTTP 404 "Order with id
    N not found", no order having the id; HTTP 400 "Invalid status
    transition from A to B", the transition not being in the table; HTTP
    500 "Database error occurred: Failed to update order status"; an
    [AttributeError], on a cancellation, a line of the order naming an
    item that does not exist. *)
Theorem X21_update_order_status_outcomes order_id new d plan :
  int64 order_id →
  (new = CANCELLED → restore_fits (items d) (db.lines_of order_id d)) →
  let run := get_db (update_order_status order_id new) d plan in
  match run.1 with
  | Ok r =>
      orders (committed run.2) = with_status order_id new (orders d)
      ∧ ∃ o, find (λ x, bool_decide (Order.id x = order_id)) (orders d) = Some o
             ∧ allowed (Order.status o) new
             ∧ r = Some (Order.set_status new o, db.lines_of order_id d)
  | Raise e => update_order_status_error order_id new d e
  end.
Proof.
  intros _ _.
  pose proof (update_order_status_post order_id new d plan) as Hpost.
  unfold get_db, post in *. simpl in *.
  destruct (update_order_status order_id new (SessionLocal d plan)) as [[r|e] s']; simpl.
  - by destruct Hpost as (_ & Ho & Hr).
  - by destruct Hpost as (_ & _ & He).
Qed.

Lemma X21_update_order_status_outcomes_witness :
  (let run := get_db (update_order_status 1 CANCELLED) shop_R1 no_faults in
   match run.1 with
   | Ok r =>
       orders (committed run.2) = with_status 1 CANCELLED (orders shop_R1)
       ∧ ∃ o, find (λ x, bool_decide (Order.id x = 1)) (orders shop_R1) = Some o
              ∧ allowed (Order.status o) CANCELLED
              ∧ r = Some (Order.set_status CANCELLED o, db.lines_of 1 shop_R1)
   | Raise e => update_order_status_error 1 CANCELLED shop_R1 e
   end)
  ∧ (get_db (update_order_status 1 CANCELLED) shop_R1 no_faults).1
    = Ok (Some (Order.set_status CANCELLED O1, db.lines_of 1 shop_R1)).
Proof.
  split; [|by vm_compute].
  apply (X21_update_order_status_outcomes 1 CANCELLED shop_R1 no_faults).
  - by vm_compute.
  - intros _. by vm_compute.
Defined.
